(** * Incremental user count: schema, triggers, reconciliation and read path

    A shallow embedding of [database/schema.sql] (the tables [user_list] and
    [user_stats], the trigger function [update_user_count], its two row
    triggers and [recalculate_user_count]), of [database/connection.js]
    ([query], [getUserCount]) and of the [/api/usercount] route of
    [server.js].

    Tables are lists of rows in insertion order.  A statement is a function
    from the database to a [result]: [Raise] aborts the statement, and the
    enclosing (autocommit) transaction rolls back to the database it started
    from.  [CURRENT_TIMESTAMP] is the start time of the transaction and is
    passed to every statement as [now]. *)

From Stdlib Require Import ZArith List Ascii String Bool Lia.
Import ListNotations.
Local Open Scope Z_scope.

(** ** Rows and tables *)

Definition timestamp := Z.

(** [user_list]: [id SERIAL PRIMARY KEY], [username] and [email]
    [VARCHAR(255) NOT NULL UNIQUE], two nullable timestamps. *)
Record user_list_row := mk_user_list_row {
  ul_id : Z;
  username : string;
  email : string;
  created_at : option timestamp;
  updated_at : option timestamp
}.

(** [user_stats]: [id INTEGER PRIMARY KEY DEFAULT 1],
    [total_users INTEGER NOT NULL DEFAULT 0], a nullable timestamp and
    [CHECK (id = 1)]. *)
Record user_stats_row := mk_user_stats_row {
  us_id : Z;
  total_users : Z;
  last_updated : option timestamp
}.

Record database := mk_database {
  user_list : list user_list_row;
  user_stats : list user_stats_row
}.

(** ** Errors raised by the engine *)

Inductive sqlstate :=
| unique_violation              (* 23505 *)
| check_violation               (* 23514 *)
| numeric_value_out_of_range    (* 22003 *)
| string_data_right_truncation. (* 22001 *)

Inductive result (A : Type) :=
| Ok (a : A)
| Raise (e : sqlstate).

Arguments Ok {A} a.
Arguments Raise {A} e.

Definition bind {A B : Type} (m : result A) (k : A -> result B) : result B :=
  match m with
  | Ok a => k a
  | Raise e => Raise e
  end.

Notation "x <- m ;; k" := (bind m (fun x => k))
  (at level 61, m at next level, right associativity).

(** A failed statement leaves the database of the transaction start. *)
Definition commit (r : result database) (db : database) : database :=
  match r with
  | Ok db' => db'
  | Raise _ => db
  end.

(** ** INTEGER

    [INTEGER] is 32 bits wide and signed.  Arithmetic and assignment that
    leave the range raise "integer out of range"; nothing wraps around. *)

Definition INT4_MIN : Z := -2147483648.
Definition INT4_MAX : Z := 2147483647.

Definition int4 (z : Z) : result Z :=
  if (INT4_MIN <=? z) && (z <=? INT4_MAX) then Ok z
  else Raise numeric_value_out_of_range.

(** ** VARCHAR(255)

    A string is taken as the sequence of its characters.  Storing a value in
    a [VARCHAR(255)] column keeps a value of at most 255 characters as it is;
    a longer one is cut to 255 characters when all the characters cut off
    are spaces, and raises "value too long" otherwise. *)

Fixpoint all_spaces (s : string) : bool :=
  match s with
  | EmptyString => true
  | String c s' => Ascii.eqb c " "%char && all_spaces s'
  end.

Definition varchar255 (s : string) : result string :=
  if (String.length s <=? 255)%nat then Ok s
  else if all_spaces (substring 255 (String.length s - 255) s)
       then Ok (substring 0 255 s)
       else Raise string_data_right_truncation.

(** ** Constraints of [user_list] *)

(** The three unique indexes: primary key, [username], [email]. *)
Definition conflicts (r x : user_list_row) : bool :=
  (ul_id x =? ul_id r) || String.eqb (username x) (username r)
  || String.eqb (email x) (email r).

Definition insert_row (r : user_list_row) (t : list user_list_row)
  : result (list user_list_row) :=
  if existsb (conflicts r) t then Raise unique_violation else Ok (t ++ [r]).

Fixpoint insert_rows (rs : list user_list_row) (t : list user_list_row)
  : result (list user_list_row) :=
  match rs with
  | [] => Ok t
  | r :: rs' => t' <- insert_row r t ;; insert_rows rs' t'
  end.

(** ** [UPDATE user_stats SET total_users = e, last_updated = CURRENT_TIMESTAMP WHERE id = 1]

    [e] is the new value as a function of the old one; it may raise.  Rows
    that do not satisfy [id = 1] are left alone, and a table without such a
    row is returned as it is: updating zero rows is not an error. *)
Fixpoint UPDATE_user_stats (e : Z -> result Z) (now : timestamp)
  (t : list user_stats_row) : result (list user_stats_row) :=
  match t with
  | [] => Ok []
  | r :: t' =>
      if us_id r =? 1 then
        n <- e (total_users r) ;;
        t'' <- UPDATE_user_stats e now t' ;;
        Ok (mk_user_stats_row (us_id r) n (Some now) :: t'')
      else
        t'' <- UPDATE_user_stats e now t' ;;
        Ok (r :: t'')
  end.

(** ** The trigger function *)

Inductive TG_OP := INSERT | UPDATE | DELETE | TRUNCATE.

(** Returns the database and the row handed back to the engine ([NEW],
    [OLD] or [NULL]). *)
Definition update_user_count (tg_op : TG_OP) (NEW OLD : option user_list_row)
  (now : timestamp) (db : database) : result (database * option user_list_row) :=
  match tg_op with
  | INSERT =>
      s <- UPDATE_user_stats (fun total => int4 (total + 1)) now (user_stats db) ;;
      Ok (mk_database (user_list db) s, NEW)
  | DELETE =>
      s <- UPDATE_user_stats (fun total => int4 (total - 1)) now (user_stats db) ;;
      Ok (mk_database (user_list db) s, OLD)
  | _ => Ok (db, None)
  end.

(** [AFTER INSERT ... FOR EACH ROW] and [AFTER DELETE ... FOR EACH ROW]:
    the value returned by an AFTER trigger is ignored. *)
Definition user_insert_trigger (r : user_list_row) (now : timestamp)
  (db : database) : result database :=
  p <- update_user_count INSERT (Some r) None now db ;; Ok (fst p).

Definition user_delete_trigger (r : user_list_row) (now : timestamp)
  (db : database) : result database :=
  p <- update_user_count DELETE None (Some r) now db ;; Ok (fst p).

(** Row-level AFTER triggers are queued while the statement runs and fired,
    once per affected row, when it ends. *)
Fixpoint for_each_row (trigger : user_list_row -> timestamp -> database -> result database)
  (rows : list user_list_row) (now : timestamp) (db : database) : result database :=
  match rows with
  | [] => Ok db
  | r :: rows' => db' <- trigger r now db ;; for_each_row trigger rows' now db'
  end.

(** ** Statements on [user_list] *)

(** One element of a [VALUES] list.  [v_id] is the value the column default
    [nextval('user_list_id_seq')] produced for the row. *)
Record VALUES := mk_VALUES {
  v_id : Z;
  v_username : string;
  v_email : string
}.

(** The row built from a [VALUES] element and the column defaults. *)
Definition new_row (now : timestamp) (v : VALUES) : user_list_row :=
  mk_user_list_row (v_id v) (v_username v) (v_email v) (Some now) (Some now).

(** The values as the columns take them: [username] and [email] go through
    the length coercion of [VARCHAR(255)]. *)
Definition assign (v : VALUES) : result VALUES :=
  u <- varchar255 (v_username v) ;;
  e <- varchar255 (v_email v) ;;
  Ok (mk_VALUES (v_id v) u e).

(** The values of a statement are constants; their coercions are evaluated
    when the statement is planned, before any row is inserted. *)
Fixpoint assign_all (vals : list VALUES) : result (list VALUES) :=
  match vals with
  | [] => Ok []
  | v :: vals' =>
      v' <- assign v ;;
      stored <- assign_all vals' ;;
      Ok (v' :: stored)
  end.

(** [INSERT INTO user_list (username, email) VALUES ..., ...] *)
Definition INSERT_INTO_user_list (vals : list VALUES) (now : timestamp)
  (db : database) : result database :=
  stored <- assign_all vals ;;
  let rows := map (new_row now) stored in
  t <- insert_rows rows (user_list db) ;;
  for_each_row user_insert_trigger rows now (mk_database t (user_stats db)).

(** [DELETE FROM user_list WHERE cond] *)
Definition DELETE_FROM_user_list (cond : user_list_row -> bool) (now : timestamp)
  (db : database) : result database :=
  let old := filter cond (user_list db) in
  let t := filter (fun r => negb (cond r)) (user_list db) in
  for_each_row user_delete_trigger old now (mk_database t (user_stats db)).

(** ** Reconciliation *)

(** [COUNT] yields a [BIGINT]; storing it in [actual_count INTEGER] is a
    range-checked assignment. *)
Definition recalculate_user_count (now : timestamp) (db : database)
  : result (database * Z) :=
  actual_count <- int4 (Z.of_nat (List.length (user_list db))) ;;
  s <- UPDATE_user_stats (fun _ => Ok actual_count) now (user_stats db) ;;
  Ok (mk_database (user_list db) s, actual_count).

(** ** Provisioning *)

(** [INSERT INTO user_stats ... ON CONFLICT (id) DO NOTHING]: the check
    constraint is evaluated before the arbiter index is consulted. *)
Definition INSERT_INTO_user_stats_ON_CONFLICT_DO_NOTHING (r : user_stats_row)
  (t : list user_stats_row) : result (list user_stats_row) :=
  if negb (us_id r =? 1) then Raise check_violation
  else if existsb (fun x => us_id x =? us_id r) t then Ok t
  else Ok (t ++ [r]).

(** The schema script: the [CREATE ... IF NOT EXISTS] and [CREATE OR REPLACE]
    statements keep existing rows, so the only data it writes is the single
    [user_stats] row. *)
Definition schema_sql (now : timestamp) (db : database) : result database :=
  s <- INSERT_INTO_user_stats_ON_CONFLICT_DO_NOTHING
         (mk_user_stats_row 1 0 (Some now)) (user_stats db) ;;
  Ok (mk_database (user_list db) s).

Definition empty_database : database := mk_database [] [].

Definition provisioned (now : timestamp) : database :=
  commit (schema_sql now empty_database) empty_database.

(** ** The counter as a reader sees it *)

(** The rows selected by [WHERE id = 1]. *)
Definition WHERE_id_1 (s : list user_stats_row) : list user_stats_row :=
  filter (fun r => us_id r =? 1) s.

(** [SELECT total_users, last_updated FROM user_stats WHERE id = 1] *)
Definition SELECT_FROM_user_stats (db : database) : list user_stats_row :=
  WHERE_id_1 (user_stats db).

(** The counter row a reader gets: [rows[0]] of that query, if any. *)
Definition AggregateCounter (db : database) : option user_stats_row :=
  hd_error (SELECT_FROM_user_stats db).

(** [AggregateCounter.count] *)
Definition count (db : database) : option Z :=
  option_map total_users (AggregateCounter db).

Definition cardinality (db : database) : Z := Z.of_nat (List.length (user_list db)).

Definition consistent (db : database) : Prop := count db = Some (cardinality db).

(** What the schema promises of a stored database: the unique indexes of
    [user_list], the primary key and check constraint of [user_stats], and
    the range of the [INTEGER] columns. *)
Definition in_int4 (z : Z) : Prop := INT4_MIN <= z <= INT4_MAX.

Definition schema_ok (db : database) : Prop :=
  NoDup (map ul_id (user_list db)) /\
  NoDup (map username (user_list db)) /\
  NoDup (map email (user_list db)) /\
  Forall (fun r => in_int4 (ul_id r)) (user_list db) /\
  NoDup (map us_id (user_stats db)) /\
  Forall (fun r => us_id r = 1 /\ in_int4 (total_users r)) (user_stats db).

(** ** [connection.js]

    A JavaScript computation runs in a world (the connection object, the
    PostgreSQL server behind it and the clock) and either returns or throws. *)

Record Error := mk_Error {
  code : option string;
  message : string
}.

Inductive completion (A : Type) :=
| Return (a : A)
| Throw (error : Error).

Arguments Return {A} a.
Arguments Throw {A} error.

(** [pool] is [true] once the pool object is set.  [unreachable] holds the
    error the driver rejects with while the server cannot be reached. *)
Record DatabaseConnection := mk_DatabaseConnection {
  pool : bool;
  isConnected : bool
}.

Record world := mk_world {
  dbConnection : DatabaseConnection;
  unreachable : option Error;
  storage : database;
  clock : timestamp
}.

Definition js (A : Type) : Type := world -> world * completion A.

Definition js_bind {A B : Type} (m : js A) (k : A -> js B) : js B :=
  fun w =>
    match m w with
    | (w', Return a) => k a w'
    | (w', Throw error) => (w', Throw error)
    end.

Notation "x <~ m ;; k" := (js_bind m (fun x => k))
  (at level 61, m at next level, right associativity).

Definition js_return {A : Type} (a : A) : js A := fun w => (w, Return a).

Definition SQLSTATE (e : sqlstate) : string :=
  match e with
  | unique_violation => "23505"
  | check_violation => "23514"
  | numeric_value_out_of_range => "22003"
  | string_data_right_truncation => "22001"
  end.

Definition DatabaseError (e : sqlstate) : Error :=
  mk_Error (Some (SQLSTATE e))
    match e with
    | unique_violation => "duplicate key value violates unique constraint"
    | check_violation => "new row violates check constraint"
    | numeric_value_out_of_range => "integer out of range"
    | string_data_right_truncation => "value too long for type character varying(255)"
    end.

(** The columns of [SELECT total_users, last_updated FROM user_stats]. *)
Record userStats := mk_userStats {
  col_total_users : Z;
  col_last_updated : option timestamp
}.

Definition columns (r : user_stats_row) : userStats :=
  mk_userStats (total_users r) (last_updated r).

(** The statements the application sends, indexed by the type of their rows. *)
Inductive sql : Type -> Type :=
| SELECT_total_users_last_updated : sql userStats
| SELECT_recalculate_user_count : sql Z
| SELECT_1 : sql Z
| INSERT_username_email (v : VALUES) : sql unit.

Definition set_storage (w : world) (db : database) : world :=
  mk_world (dbConnection w) (unreachable w) db (clock w).

(** [pool.query]: each statement is its own transaction. *)
Definition pool_query {A : Type} (text : sql A) : js (list A) :=
  fun w =>
    match unreachable w with
    | Some error => (w, Throw error)
    | None =>
        match text in sql A return world * completion (list A) with
        | SELECT_total_users_last_updated =>
            (w, Return (map columns (SELECT_FROM_user_stats (storage w))))
        | SELECT_recalculate_user_count =>
            match recalculate_user_count (clock w) (storage w) with
            | Ok (db, actual_count) => (set_storage w db, Return [actual_count])
            | Raise e => (w, Throw (DatabaseError e))
            end
        | SELECT_1 => (w, Return [1])
        | INSERT_username_email v =>
            match INSERT_INTO_user_list [v] (clock w) (storage w) with
            | Ok db => (set_storage w db, Return [])
            | Raise e => (w, Throw (DatabaseError e))
            end
        end
    end.

(** [query]: the [catch] logs and throws the same error again. *)
Definition query {A : Type} (text : sql A) : js (list A) :=
  fun w =>
    if negb (pool (dbConnection w)) || negb (isConnected (dbConnection w)) then
      (w, Throw (mk_Error None "Database not connected. Call connect() first."))
    else pool_query text w.

(** [getUserCount]: [rows[0]] of an empty array is [undefined], here [None]. *)
Definition getUserCount : js (option userStats) :=
  rows <~ query SELECT_total_users_last_updated ;;
  if (List.length rows =? 0)%nat then
    _ <~ query SELECT_recalculate_user_count ;;
    recalcRows <~ query SELECT_total_users_last_updated ;;
    js_return (hd_error recalcRows)
  else js_return (hd_error rows).

(** [healthCheck] never throws. *)
Inductive health :=
| healthy (connected : bool)
| unhealthy (error : string).

Definition healthCheck : js health :=
  fun w =>
    match query SELECT_1 w with
    | (w', Return _) => (w', Return (healthy (isConnected (dbConnection w'))))
    | (w', Throw error) => (w', Return (unhealthy (message error)))
    end.

(** ** [server.js] *)

Inductive body :=
| usercount_body (totalUsers : Z) (lastUpdated : option timestamp)
| health_body (status : health) (timestamp_ : timestamp)
| error_body (error message_ : string) (timestamp_ : timestamp).

Record reply := mk_reply {
  statusCode : Z;
  payload : body
}.

(** [total_users] arrives as a JavaScript number that is a 32-bit integer;
    [parseInt] of such a number is the number. *)
Definition parseInt (n : Z) : Z := n.

(** [GET /api/usercount].  Its [catch] also receives the [TypeError] of
    reading [total_users] of [undefined]. *)
Definition api_usercount : js reply :=
  fun w =>
    let failed w' :=
      (w', Return (mk_reply 500
         (error_body "Internal Server Error" "Failed to retrieve user count" (clock w')))) in
    match getUserCount w with
    | (w', Return (Some stats)) =>
        (w', Return (mk_reply 200
           (usercount_body (parseInt (col_total_users stats)) (col_last_updated stats))))
    | (w', Return None) => failed w'
    | (w', Throw _) => failed w'
    end.

(** [GET /health] *)
Definition health_route : js reply :=
  dbHealth <~ healthCheck ;;
  fun w =>
    match dbHealth with
    | healthy _ => (w, Return (mk_reply 200 (health_body dbHealth (clock w))))
    | unhealthy _ => (w, Return (mk_reply 503 (health_body dbHealth (clock w))))
    end.

Definition code_is (error : Error) (c : string) : bool :=
  match code error with
  | Some c' => String.eqb c' c
  | None => false
  end.

(** The handler given to [setErrorHandler]. *)
Definition errorHandler (error : Error) (now : timestamp) : reply :=
  if code_is error "ECONNREFUSED" || code_is error "ENOTFOUND" then
    mk_reply 503 (error_body "Service Unavailable" "Database connection failed" now)
  else
    mk_reply 500 (error_body "Internal Server Error" "An unexpected error occurred" now).

(** A request: the route runs, and what it throws goes to the error handler. *)
Definition handle (route : js reply) (w : world) : world * reply :=
  match route w with
  | (w', Return r) => (w', r)
  | (w', Throw error) => (w', errorHandler error (clock w'))
  end.

(** The read path reports "service unavailable": status 503. *)
Definition service_unavailable (r : reply) : Prop := statusCode r = 503.

(** ** Sequences of transactions *)

Inductive mutation :=
| Insert (vals : list VALUES)
| Delete (cond : user_list_row -> bool).

Definition run_mutation (m : mutation) (now : timestamp) (db : database)
  : result database :=
  match m with
  | Insert vals => INSERT_INTO_user_list vals now db
  | Delete cond => DELETE_FROM_user_list cond now db
  end.

(** The database after each transaction of a sequence, in order. *)
Fixpoint history (ms : list (mutation * timestamp)) (db : database) : list database :=
  match ms with
  | [] => []
  | (m, now) :: ms' =>
      let db' := commit (run_mutation m now db) db in
      db' :: history ms' db'
  end.

(** A list of statements run one after the other in one transaction, which
    commits when all of them succeed. *)
Fixpoint one_by_one {A : Type} (stmt : A -> timestamp -> database -> result database)
  (xs : list A) (now : timestamp) (db : database) : result database :=
  match xs with
  | [] => Ok db
  | x :: xs' => db' <- stmt x now db ;; one_by_one stmt xs' now db'
  end.

(** [k] runs of the same [UPDATE user_stats] in one transaction. *)
Fixpoint adjust (e : Z -> result Z) (k : nat) (now : timestamp)
  (s : list user_stats_row) : result (list user_stats_row) :=
  match k with
  | O => Ok s
  | S k' => s' <- UPDATE_user_stats e now s ;; adjust e k' now s'
  end.

(** [SELECT recalculate_user_count()] as a transaction. *)
Definition SELECT_recalculate (now : timestamp) (db : database) : result database :=
  p <- recalculate_user_count now db ;; Ok (fst p).

(** One operation of the system on the stored database: a mutation of the
    ledger, a reconciliation, the schema script run again, a statement sent
    through [query], a count read, or a request to the route. *)
Inductive step : database -> database -> Prop :=
| step_mutation (m : mutation) (now : timestamp) (db : database) :
    step db (commit (run_mutation m now db) db)
| step_recalculate (now : timestamp) (db : database) :
    step db (commit (SELECT_recalculate now db) db)
| step_schema (now : timestamp) (db : database) :
    step db (commit (schema_sql now db) db)
| step_query (A : Type) (text : sql A) (w : world) :
    step (storage w) (storage (fst (query text w)))
| step_getUserCount (w : world) :
    step (storage w) (storage (fst (getUserCount w)))
| step_request (w : world) :
    step (storage w) (storage (fst (handle api_usercount w))).

Inductive reachable : database -> Prop :=
| reachable_provisioned (now : timestamp) : reachable (provisioned now)
| reachable_step (db db' : database) :
    reachable db -> step db db' -> reachable db'.

(** ** Concrete data *)

Definition alice : VALUES := mk_VALUES 1 "alice" "alice@example.com".
Definition bob : VALUES := mk_VALUES 2 "bob" "bob@example.com".
Definition carol : VALUES := mk_VALUES 3 "carol" "carol@example.com".
Definition alice_again : VALUES := mk_VALUES 4 "alice" "alice@example.org".

Definition dave : VALUES := mk_VALUES 5 "dave" "dave@example.com".

(** 256 characters, one more than a column takes. *)
Fixpoint replicate (n : nat) (c : ascii) : string :=
  match n with
  | O => EmptyString
  | S n' => String c (replicate n' c)
  end.

Definition x256 : string := replicate 256 "x"%char.

(** A stored username with an email that is too long. *)
Definition alice_long_email : VALUES := mk_VALUES 4 "alice" x256.

Definition connected : DatabaseConnection := mk_DatabaseConnection true true.

Definition is_bob (r : user_list_row) : bool := String.eqb (username r) "bob".

(** The scenario of the test plan: three members are inserted in one
    statement, one is deleted, and an insert with a taken name is tried. *)
Definition scenario : list (mutation * timestamp) :=
  [(Insert [alice; bob; carol], 5); (Delete is_bob, 6); (Insert [alice_again], 7)].

Definition three_members : database :=
  mk_database [new_row 5 alice; new_row 5 bob; new_row 5 carol]
    [mk_user_stats_row 1 3 (Some 5)].

Definition one_member : database :=
  mk_database [new_row 5 alice] [mk_user_stats_row 1 1 (Some 5)].

Definition only_bob : database :=
  mk_database [new_row 5 bob] [mk_user_stats_row 1 1 (Some 8)].

Definition is_not_bob (r : user_list_row) : bool := negb (is_bob r).

Definition two_members : database :=
  mk_database [new_row 5 alice; new_row 5 carol] [mk_user_stats_row 1 2 (Some 6)].

(** A ledger of two members whose counter row has been deleted. *)
Definition two_members_no_counter : database :=
  mk_database [new_row 10 alice; new_row 11 bob] [].

(** The error of a refused TCP connection. *)
Definition ECONNREFUSED : Error :=
  mk_Error (Some "ECONNREFUSED"%string) "connect ECONNREFUSED 127.0.0.1:5432".

(** A ledger of 2^31 members.  Member [n] has id [n] and the binary numeral
    of [n + 1] as its name. *)
Fixpoint numeral (p : positive) : string :=
  match p with
  | xH => "1"
  | xO q => String "0"%char (numeral q)
  | xI q => String "1"%char (numeral q)
  end.

Definition member (n : nat) : user_list_row :=
  mk_user_list_row (Z.of_nat n) (numeral (Pos.of_succ_nat n))
    (String "@"%char (numeral (Pos.of_succ_nat n))) None None.

Definition two_to_31 : nat := Z.to_nat 2147483648.

Definition crowded : database :=
  mk_database (map member (seq 0 two_to_31)) [mk_user_stats_row 1 0 None].

(** ** What a mutation is expected to do *)

(** The number of rows a statement affects. *)
Definition affected_rows (m : mutation) (db : database) : nat :=
  match m with
  | Insert vals => List.length vals
  | Delete cond => List.length (filter cond (user_list db))
  end.

(** The adjustment of one affected row. *)
Definition delta (m : mutation) : Z :=
  match m with
  | Insert _ => 1
  | Delete _ => -1
  end.

(** A value as a [VARCHAR(255)] column holds it once it was accepted. *)
Definition clip255 (s : string) : string :=
  if (String.length s <=? 255)%nat then s else substring 0 255 s.

Definition stored_as (v : VALUES) : VALUES :=
  mk_VALUES (v_id v) (clip255 (v_username v)) (clip255 (v_email v)).

(** Both values have at most 255 characters. *)
Definition fits (v : VALUES) : Prop :=
  (String.length (v_username v) <= 255)%nat /\
  (String.length (v_email v) <= 255)%nat.

(** The ledger a committed statement leaves. *)
Definition ledger_after (m : mutation) (now : timestamp) (db : database)
  : list user_list_row :=
  match m with
  | Insert vals => user_list db ++ map (new_row now) (map stored_as vals)
  | Delete cond => filter (fun r => negb (cond r)) (user_list db)
  end.

(** The same rows, one single-row statement each: every [VALUES] element in
    an [INSERT] of its own, every deleted row in a [DELETE ... WHERE id = ]
    of its own. *)
Definition row_by_row (m : mutation) (now : timestamp) (db : database)
  : result database :=
  match m with
  | Insert vals =>
      one_by_one (fun v => INSERT_INTO_user_list [v]) vals now db
  | Delete cond =>
      one_by_one (fun x => DELETE_FROM_user_list (fun r => ul_id r =? ul_id x))
        (filter cond (user_list db)) now db
  end.

(** The statement on the ledger alone, with no trigger attached. *)
Definition ledger_statement (m : mutation) (now : timestamp)
  (t : list user_list_row) : result (list user_list_row) :=
  match m with
  | Insert vals =>
      stored <- assign_all vals ;; insert_rows (map (new_row now) stored) t
  | Delete cond => Ok (filter (fun r => negb (cond r)) t)
  end.

(** The table after [SET total_users = n, last_updated = now WHERE id = 1]. *)
Definition overwrite (n : Z) (now : timestamp) (s : list user_stats_row)
  : list user_stats_row :=
  map (fun r => if us_id r =? 1 then mk_user_stats_row (us_id r) n (Some now) else r) s.

(** The value a function call hands to its caller. *)
Definition returned {A B : Type} (r : result (A * B)) : result B :=
  p <- r ;; Ok (snd p).

(** ** Invariants *)

(** [user_stats] holds exactly one row, it has [id = 1], and its count is
    not negative. *)
Definition single_counter_row (db : database) : Prop :=
  exists r, user_stats db = [r] /\ us_id r = 1 /\ 0 <= total_users r.

(** The one row of [user_stats] holds the number of ledger rows. *)
Definition counter_tracks_ledger (db : database) : Prop :=
  exists r, user_stats db = [r] /\ us_id r = 1 /\ total_users r = cardinality db.

(** A computation that keeps [counter_tracks_ledger] of the stored database. *)
Definition preserves {A : Type} (m : js A) : Prop :=
  forall w, counter_tracks_ledger (storage w) ->
            counter_tracks_ledger (storage (fst (m w))).

(** ** The declared constraints *)

(** The three unique indexes of [user_list]. *)
Definition keys_unique (t : list user_list_row) : Prop :=
  NoDup (map ul_id t) /\ NoDup (map username t) /\ NoDup (map email t).

(** The constraints the schema declares on stored rows: the unique indexes
    of [user_list]; the primary key and the check of [user_stats]; the range
    of [total_users]. *)
Definition constraints_ok (db : database) : Prop :=
  keys_unique (user_list db) /\
  NoDup (map us_id (user_stats db)) /\
  Forall (fun r => us_id r = 1 /\ in_int4 (total_users r)) (user_stats db).

Definition in_int4b (z : Z) : bool := (INT4_MIN <=? z) && (z <=? INT4_MAX).

(** The counter minus the number of ledger rows. *)
Definition drift (db : database) : option Z :=
  option_map (fun n => n - cardinality db) (count db).

(** ** [connection.js]: [connect] and [close] *)

Definition set_dbConnection (w : world) (c : DatabaseConnection) : world :=
  mk_world c (unreachable w) (storage w) (clock w).

Definition not_connected : Error :=
  mk_Error None "Database not connected. Call connect() first.".

(** [connect]: the pool object is created before the test query runs, so it
    stays set when the test fails; the error thrown then is a new one that
    carries the message of the cause and no code. *)
Definition connect : js unit :=
  fun w =>
    match unreachable w with
    | None => (set_dbConnection w (mk_DatabaseConnection true true), Return tt)
    | Some error =>
        (set_dbConnection w (mk_DatabaseConnection true false),
         Throw (mk_Error None
                  (String.append "Database connection failed: " (message error))))
    end.

(** [close]: [pool_end] is what [pool.end()] does, return or throw. *)
Definition close (pool_end : completion unit) : js unit :=
  fun w =>
    if pool (dbConnection w) then
      match pool_end with
      | Return _ =>
          (set_dbConnection w
             (mk_DatabaseConnection (pool (dbConnection w)) false), Return tt)
      | Throw error => (w, Throw error)
      end
    else (w, Return tt).

(** A world whose pool is connected and whose server answers. *)
Definition online (db : database) (now : timestamp) : world :=
  mk_world connected None db now.

(** ** [setup.js]: [addSampleData] *)

(** The five sample users; [nextval i] is the id drawn for attempt [i]. *)
Definition sampleUsers (nextval : nat -> Z) : list VALUES :=
  [ mk_VALUES (nextval 0%nat) "john_d1oe" "john1@example.com";
    mk_VALUES (nextval 1%nat) "jane_sm1ith" "jane1@example.com";
    mk_VALUES (nextval 2%nat) "bob_wil1son" "b1ob@example.com";
    mk_VALUES (nextval 3%nat) "alice_br1own" "al1ice@example.com";
    mk_VALUES (nextval 4%nat) "charli1e_davis" "cha1rlie@example.com" ].

(** The [for ... of] loop: a unique violation skips the user, any other
    error leaves the loop. *)
Fixpoint for_of_users (users : list VALUES) : js unit :=
  match users with
  | [] => js_return tt
  | user :: users' =>
      fun w =>
        match query (INSERT_username_email user) w with
        | (w', Return _) => for_of_users users' w'
        | (w', Throw error) =>
            if code_is error "23505" then for_of_users users' w'
            else (w', Throw error)
        end
  end.

Definition TypeError_total_users : Error :=
  mk_Error None "Cannot read properties of undefined (reading 'total_users')".

(** [addSampleData]; its value here is the count it logs.  The outer [catch]
    logs and throws the same error again. *)
Definition addSampleData (nextval : nat -> Z) : js Z :=
  _ <~ connect ;;
  _ <~ for_of_users (sampleUsers nextval) ;;
  countResult <~ getUserCount ;;
  match countResult with
  | Some stats => js_return (col_total_users stats)
  | None => fun w => (w, Throw TypeError_total_users)
  end.

(** A stored row holds the username or the email of [u]. *)
Definition natural_key_stored (t : list user_list_row) (u : VALUES) : Prop :=
  exists x, In x t /\ (username x = v_username u \/ email x = v_email u).

(** The ids drawn for [users] are distinct and not in the ledger. *)
Definition fresh_ids (users : list VALUES) (t : list user_list_row) : Prop :=
  NoDup (map v_id users) /\
  Forall (fun u => ~ In (v_id u) (map ul_id t)) users.

(** [DELETE FROM user_list WHERE id IN (...)], the ids being those of [vals]. *)
Definition id_among (vals : list VALUES) (r : user_list_row) : bool :=
  existsb (fun v => ul_id r =? v_id v) vals.

(** A drifted database: two members, and a stored count of 40. *)
Definition drifted : database :=
  mk_database (user_list two_members) [mk_user_stats_row 1 40 (Some 3)].

Definition sample_ids (i : nat) : Z := 101 + Z.of_nat i.

(** [two_members] after the five sample users were added at time 30. *)
Definition seven_members : database :=
  mk_database (user_list two_members ++ map (new_row 30) (sampleUsers sample_ids))
    [mk_user_stats_row 1 7 (Some 30)].

(** A computation that keeps a property [P] of the stored database. *)
Definition keeps (P : database -> Prop) {A : Type} (m : js A) : Prop :=
  forall w, P (storage w) -> P (storage (fst (m w))).

(** * Properties *)

(** ** INTEGER and the error monad *)

Lemma int4_Ok (z n : Z) : int4 z = Ok n -> n = z /\ in_int4 z.
Proof.
  unfold int4, in_int4.
  destruct (INT4_MIN <=? z) eqn:Hlo; destruct (z <=? INT4_MAX) eqn:Hhi;
    simpl; intros H; inversion H; subst.
  apply Z.leb_le in Hlo. apply Z.leb_le in Hhi. auto.
Qed.

Lemma int4_in (z : Z) : in_int4 z -> int4 z = Ok z.
Proof.
  unfold int4, in_int4. intros [Hlo Hhi].
  apply Z.leb_le in Hlo. apply Z.leb_le in Hhi. now rewrite Hlo, Hhi.
Qed.

Lemma int4_Raise (z : Z) (e : sqlstate) :
  int4 z = Raise e -> e = numeric_value_out_of_range /\ ~ in_int4 z.
Proof.
  unfold int4, in_int4.
  destruct (INT4_MIN <=? z) eqn:Hlo; destruct (z <=? INT4_MAX) eqn:Hhi;
    simpl; intros H; inversion H; subst; split; auto; intros [? ?].
  - apply Z.leb_gt in Hhi. lia.
  - apply Z.leb_gt in Hlo. lia.
  - apply Z.leb_gt in Hlo. lia.
Qed.

Lemma bind_Ok {A B : Type} (m : result A) (k : A -> result B) (b : B) :
  bind m k = Ok b -> exists a, m = Ok a /\ k a = Ok b.
Proof. destruct m as [a|e]; simpl; intros H; [eauto | discriminate]. Qed.

Ltac bind_inv H :=
  let a := fresh "x" in
  let H1 := fresh "E" in
  apply bind_Ok in H; destruct H as (a & H1 & H).

Tactic Notation "bind_split" hyp(H) "as" ident(a) ident(H1) :=
  apply bind_Ok in H; destruct H as (a & H1 & H).

(** ** The [UPDATE] of the counter row *)

(** The update keeps the rows and their identities. *)
Lemma UPDATE_user_stats_ids e now s s' :
  UPDATE_user_stats e now s = Ok s' -> map us_id s' = map us_id s.
Proof.
  revert s'. induction s as [|r s IH]; simpl; intros s' H.
  - now inversion H.
  - destruct (us_id r =? 1).
    + bind_inv H. bind_inv H. inversion H; subst. simpl. f_equal. now apply IH.
    + bind_inv H. inversion H; subst. simpl. f_equal. now apply IH.
Qed.

(** What a reader sees after the update: the first row with [id = 1] holds
    the new value and the time of the update; a table without such a row is
    unchanged. *)
Lemma UPDATE_user_stats_first e now s s' :
  UPDATE_user_stats e now s = Ok s' ->
  match hd_error (WHERE_id_1 s) with
  | Some r =>
      exists n, e (total_users r) = Ok n /\
        hd_error (WHERE_id_1 s') = Some (mk_user_stats_row 1 n (Some now))
  | None => s' = s
  end.
Proof.
  unfold WHERE_id_1.
  revert s'. induction s as [|r s IH]; simpl; intros s' H.
  - now inversion H.
  - destruct (us_id r =? 1) eqn:Hid.
    + bind_inv H. bind_inv H. inversion H; subst. simpl.
      apply Z.eqb_eq in Hid. rewrite Hid. simpl. eauto.
    + bind_inv H. inversion H; subst. simpl. rewrite Hid.
      specialize (IH _ E).
      destruct (hd_error (filter (fun r0 => us_id r0 =? 1) s)); [exact IH|].
      now rewrite IH.
Qed.

(** Updating zero rows succeeds and changes nothing. *)
Lemma UPDATE_user_stats_absent e now s :
  WHERE_id_1 s = [] -> UPDATE_user_stats e now s = Ok s.
Proof.
  unfold WHERE_id_1. induction s as [|r s IH]; simpl; intros H; [reflexivity|].
  destruct (us_id r =? 1); [discriminate|]. now rewrite (IH H).
Qed.

(** An update to a constant never raises. *)
Lemma UPDATE_user_stats_const n now s :
  UPDATE_user_stats (fun _ => Ok n) now s = Ok (overwrite n now s).
Proof.
  unfold overwrite. induction s as [|r s IH]; simpl; [reflexivity|].
  rewrite IH. now destruct (us_id r =? 1).
Qed.

Lemma adjust_ids e k now s s' :
  adjust e k now s = Ok s' -> map us_id s' = map us_id s.
Proof.
  revert s. induction k as [|k IH]; simpl; intros s H.
  - now inversion H.
  - bind_inv H. rewrite (IH _ H). eapply UPDATE_user_stats_ids; eauto.
Qed.

Lemma adjust_absent e k now s :
  WHERE_id_1 s = [] -> adjust e k now s = Ok s.
Proof.
  intros H. induction k as [|k IH]; simpl; [reflexivity|].
  now rewrite (UPDATE_user_stats_absent _ _ _ H).
Qed.

(** [k] adjustments by [d] move the counter by [k * d]; the time is that of
    the transaction as soon as one adjustment ran. *)
Lemma adjust_first e d k now s s' r :
  (forall n m, e n = Ok m -> m = n + d) ->
  adjust e k now s = Ok s' ->
  hd_error (WHERE_id_1 s) = Some r ->
  exists r', hd_error (WHERE_id_1 s') = Some r' /\
    us_id r' = 1 /\
    total_users r' = total_users r + Z.of_nat k * d /\
    (k <> O -> last_updated r' = Some now) /\
    (k = O -> r' = r).
Proof.
  intros He. revert s r. induction k as [|k IH]; intros s r H Hr; simpl in H.
  - injection H as <-. exists r. repeat split; try lia; try congruence.
    unfold WHERE_id_1 in Hr.
    destruct (filter (fun r0 => us_id r0 =? 1) s) as [|x l] eqn:Hf; [discriminate|].
    inversion Hr; subst.
    assert (Hin : In r (filter (fun r0 => us_id r0 =? 1) s)) by (rewrite Hf; now left).
    apply filter_In in Hin. now apply Z.eqb_eq.
  - bind_inv H. pose proof (UPDATE_user_stats_first _ _ _ _ E) as Hu.
    rewrite Hr in Hu. destruct Hu as (n & Hn & Hx).
    apply He in Hn. subst n.
    destruct (IH _ _ H Hx) as (r' & Hr' & Hid & Ht & Hl & Hz).
    exists r'. repeat split; auto.
    + rewrite Ht. cbn [total_users]. lia.
    + intros _. destruct k; [rewrite Hz by reflexivity; reflexivity | apply Hl; discriminate].
    + discriminate.
Qed.

Lemma increment_by_one n m : int4 (n + 1) = Ok m -> m = n + 1.
Proof. intros H. now apply int4_Ok in H. Qed.

Lemma decrement_by_one n m : int4 (n - 1) = Ok m -> m = n + -1.
Proof. intros H. apply int4_Ok in H. lia. Qed.

(** ** Anatomy of the statements *)

(** The trigger function touches [user_stats] only. *)
Lemma user_insert_trigger_eq r now t s :
  user_insert_trigger r now (mk_database t s) =
  (s' <- UPDATE_user_stats (fun total => int4 (total + 1)) now s ;;
   Ok (mk_database t s')).
Proof.
  unfold user_insert_trigger, update_user_count. simpl.
  now destruct (UPDATE_user_stats _ now s).
Qed.

Lemma user_delete_trigger_eq r now t s :
  user_delete_trigger r now (mk_database t s) =
  (s' <- UPDATE_user_stats (fun total => int4 (total - 1)) now s ;;
   Ok (mk_database t s')).
Proof.
  unfold user_delete_trigger, update_user_count. simpl.
  now destruct (UPDATE_user_stats _ now s).
Qed.

(** Firing the insert trigger for each row is one adjustment per row. *)
Lemma for_each_row_insert rows now t s :
  for_each_row user_insert_trigger rows now (mk_database t s) =
  (s' <- adjust (fun total => int4 (total + 1)) (List.length rows) now s ;;
   Ok (mk_database t s')).
Proof.
  revert s. induction rows as [|r rows IH]; intros s; simpl; [reflexivity|].
  rewrite user_insert_trigger_eq.
  destruct (UPDATE_user_stats _ now s) as [s1|e]; simpl; [apply IH | reflexivity].
Qed.

Lemma for_each_row_delete rows now t s :
  for_each_row user_delete_trigger rows now (mk_database t s) =
  (s' <- adjust (fun total => int4 (total - 1)) (List.length rows) now s ;;
   Ok (mk_database t s')).
Proof.
  revert s. induction rows as [|r rows IH]; intros s; simpl; [reflexivity|].
  rewrite user_delete_trigger_eq.
  destruct (UPDATE_user_stats _ now s) as [s1|e]; simpl; [apply IH | reflexivity].
Qed.

(** Rows that pass the unique indexes are appended in order. *)
Lemma insert_rows_Ok rows t t' :
  insert_rows rows t = Ok t' -> t' = t ++ rows.
Proof.
  revert t. induction rows as [|r rows IH]; simpl; intros t H.
  - inversion H. now rewrite app_nil_r.
  - bind_inv H. unfold insert_row in E.
    destruct (existsb (conflicts r) t); [discriminate|]. inversion E; subst.
    rewrite (IH _ H), <- app_assoc. reflexivity.
Qed.

(** The only error of the ledger itself is a unique violation. *)
Lemma insert_rows_Raise rows t e :
  insert_rows rows t = Raise e -> e = unique_violation.
Proof.
  revert t. induction rows as [|r rows IH]; simpl; intros t H; [discriminate|].
  unfold insert_row in H. destruct (existsb (conflicts r) t); simpl in H.
  - now inversion H.
  - eauto.
Qed.

Example varchar255_too_long : varchar255 x256 = Raise string_data_right_truncation.
Proof. vm_compute. reflexivity. Qed.

Example varchar255_trailing_spaces :
  varchar255 (String.append (replicate 255 "x"%char) "  ") = Ok (replicate 255 "x"%char).
Proof. vm_compute. reflexivity. Qed.

Example varchar255_short : varchar255 "alice" = Ok "alice"%string.
Proof. reflexivity. Qed.

(** The length coercion returns the clipped value or raises. *)
Lemma varchar255_Ok s s' : varchar255 s = Ok s' -> s' = clip255 s.
Proof.
  unfold varchar255, clip255. destruct (String.length s <=? 255)%nat.
  - now inversion 1.
  - destruct (all_spaces _); [now inversion 1 | discriminate].
Qed.

Lemma varchar255_fits s : (String.length s <= 255)%nat -> varchar255 s = Ok s.
Proof.
  intros H. unfold varchar255. apply Nat.leb_le in H. now rewrite H.
Qed.

Lemma varchar255_Raise s e :
  varchar255 s = Raise e -> e = string_data_right_truncation.
Proof.
  unfold varchar255. destruct (String.length s <=? 255)%nat; [discriminate|].
  destruct (all_spaces _); [discriminate | now inversion 1].
Qed.

Lemma assign_Ok v v' : assign v = Ok v' -> v' = stored_as v.
Proof.
  unfold assign, stored_as. intros H. bind_inv H. bind_inv H. inversion H; subst.
  now rewrite (varchar255_Ok _ _ E), (varchar255_Ok _ _ E0).
Qed.

Lemma assign_fits v : fits v -> assign v = Ok v.
Proof.
  intros [Hu He]. unfold assign.
  rewrite (varchar255_fits _ Hu), (varchar255_fits _ He). simpl. now destruct v.
Qed.

Lemma assign_all_Ok vals : forall stored,
  assign_all vals = Ok stored -> stored = map stored_as vals.
Proof.
  induction vals as [|v vals IH]; simpl; intros stored H.
  - now inversion H.
  - bind_inv H. bind_inv H. inversion H; subst.
    now rewrite (assign_Ok _ _ E), (IH _ E0).
Qed.

Lemma assign_all_fits vals : Forall fits vals -> assign_all vals = Ok vals.
Proof.
  induction 1 as [|v vals Hv _ IH]; simpl; [reflexivity|].
  now rewrite (assign_fits v Hv), IH.
Qed.

Lemma assign_all_Raise vals e :
  assign_all vals = Raise e -> e = string_data_right_truncation.
Proof.
  induction vals as [|v vals IH]; simpl; intros H; [discriminate|].
  unfold assign in H.
  destruct (varchar255 (v_username v)) as [u|e1] eqn:Hu; simpl in H.
  - destruct (varchar255 (v_email v)) as [m|e2] eqn:Hm; simpl in H.
    + destruct (assign_all vals) as [stored|e3]; simpl in H; [discriminate|].
      inversion H; subst. now apply IH.
    + inversion H; subst. eapply varchar255_Raise; eauto.
  - inversion H; subst. eapply varchar255_Raise; eauto.
Qed.

Lemma stored_as_fits v : fits v -> stored_as v = v.
Proof.
  intros [Hu He]. unfold stored_as, clip255.
  apply Nat.leb_le in Hu. apply Nat.leb_le in He. rewrite Hu, He. now destruct v.
Qed.

Lemma INSERT_INTO_user_list_Ok vals now db db' :
  INSERT_INTO_user_list vals now db = Ok db' ->
  user_list db' = user_list db ++ map (new_row now) (map stored_as vals) /\
  insert_rows (map (new_row now) (map stored_as vals)) (user_list db)
    = Ok (user_list db') /\
  adjust (fun total => int4 (total + 1)) (List.length vals) now (user_stats db)
    = Ok (user_stats db') /\
  assign_all vals = Ok (map stored_as vals).
Proof.
  unfold INSERT_INTO_user_list. intros H. bind_split H as stored Hs.
  pose proof (assign_all_Ok _ _ Hs). subst stored. bind_inv H.
  rewrite for_each_row_insert, !length_map in H. bind_inv H.
  inversion H; subst; simpl. pose proof (insert_rows_Ok _ _ _ E). subst. auto.
Qed.

Lemma DELETE_FROM_user_list_Ok cond now db db' :
  DELETE_FROM_user_list cond now db = Ok db' ->
  user_list db' = filter (fun r => negb (cond r)) (user_list db) /\
  adjust (fun total => int4 (total - 1))
    (List.length (filter cond (user_list db))) now (user_stats db)
    = Ok (user_stats db').
Proof.
  unfold DELETE_FROM_user_list. intros H.
  rewrite for_each_row_delete in H. bind_inv H.
  inversion H; subst; simpl. auto.
Qed.

(** A committed mutation leaves the expected ledger and has adjusted the
    first counter row once per affected row. *)
Lemma run_mutation_Ok m now db db' r :
  run_mutation m now db = Ok db' ->
  AggregateCounter db = Some r ->
  user_list db' = ledger_after m now db /\
  exists r', AggregateCounter db' = Some r' /\
    us_id r' = 1 /\
    total_users r' = total_users r + Z.of_nat (affected_rows m db) * delta m /\
    (affected_rows m db <> O -> last_updated r' = Some now).
Proof.
  unfold AggregateCounter, SELECT_FROM_user_stats.
  destruct m as [vals|cond]; simpl; intros H Hr.
  - apply INSERT_INTO_user_list_Ok in H. destruct H as (Hl & _ & Ha & _).
    split; [exact Hl|].
    destruct (adjust_first _ 1 _ _ _ _ _ increment_by_one Ha Hr)
      as (r' & ? & ? & ? & ? & _).
    exists r'. auto.
  - apply DELETE_FROM_user_list_Ok in H. destruct H as (Hl & Ha).
    split; [exact Hl|].
    destruct (adjust_first _ (-1) _ _ _ _ _ decrement_by_one Ha Hr)
      as (r' & ? & ? & ? & ? & _).
    exists r'. auto.
Qed.

Lemma ledger_after_cardinality m now db :
  Z.of_nat (List.length (ledger_after m now db)) =
  cardinality db + Z.of_nat (affected_rows m db) * delta m.
Proof.
  unfold cardinality. destruct m as [vals|cond]; simpl.
  - rewrite length_app, !length_map. lia.
  - pose proof (filter_length cond (user_list db)). lia.
Qed.

Lemma INSERT_INTO_user_list_eq vals now t s :
  INSERT_INTO_user_list vals now (mk_database t s) =
  (stored <- assign_all vals ;;
   t' <- insert_rows (map (new_row now) stored) t ;;
   s' <- adjust (fun total => int4 (total + 1)) (List.length vals) now s ;;
   Ok (mk_database t' s')).
Proof.
  unfold INSERT_INTO_user_list. simpl.
  destruct (assign_all vals) as [stored|e] eqn:Hs; simpl; [|reflexivity].
  pose proof (assign_all_Ok _ _ Hs). subst stored.
  destruct (insert_rows _ t) as [t'|e]; simpl; [|reflexivity].
  now rewrite for_each_row_insert, !length_map.
Qed.

Lemma DELETE_FROM_user_list_eq cond now t s :
  DELETE_FROM_user_list cond now (mk_database t s) =
  (s' <- adjust (fun total => int4 (total - 1)) (List.length (filter cond t)) now s ;;
   Ok (mk_database (filter (fun r => negb (cond r)) t) s')).
Proof. unfold DELETE_FROM_user_list. simpl. apply for_each_row_delete. Qed.

(** ** Bulk statements, row by row *)

Lemma insert_row_by_row vals now db db' :
  INSERT_INTO_user_list vals now db = Ok db' ->
  one_by_one (fun v => INSERT_INTO_user_list [v]) vals now db = Ok db'.
Proof.
  revert db. induction vals as [|v vals IH]; intros [t s] H.
  - rewrite INSERT_INTO_user_list_eq in H. simpl in *. exact H.
  - rewrite INSERT_INTO_user_list_eq in H. cbn [assign_all List.length adjust] in H.
    bind_split H as stored Hst. bind_split H as t' Ht. bind_split H as s' Hs.
    inversion H; subst.
    bind_split Hst as v' Hv. bind_split Hst as rest Hrest. inversion Hst; subst.
    cbn [map insert_rows] in Ht.
    bind_split Ht as t1 Ht1. bind_split Hs as s1 Hs1.
    cbn [one_by_one]. rewrite INSERT_INTO_user_list_eq.
    cbn [assign_all List.length adjust]. rewrite Hv. cbn [bind map insert_rows].
    rewrite Ht1. cbn [bind]. rewrite Hs1. cbn [bind].
    apply IH. rewrite INSERT_INTO_user_list_eq, Hrest. cbn [bind].
    rewrite Ht. cbn [bind]. now rewrite Hs.
Qed.

Lemma filter_id_absent x t :
  ~ In (ul_id x) (map ul_id t) -> filter (fun r => ul_id r =? ul_id x) t = [].
Proof.
  induction t as [|a t IH]; simpl; intros H; [reflexivity|].
  destruct (ul_id a =? ul_id x) eqn:Hid.
  - apply Z.eqb_eq in Hid. exfalso. apply H. now left.
  - apply IH. intros Hin. apply H. now right.
Qed.

(** With a primary key, [WHERE id = ] selects the one row. *)
Lemma filter_id_present x t :
  NoDup (map ul_id t) -> In x t -> filter (fun r => ul_id r =? ul_id x) t = [x].
Proof.
  induction t as [|a t IH]; simpl; intros Hnd Hin; [contradiction|].
  inversion Hnd as [|? ? Hnotin Hnd']; subst.
  destruct Hin as [->|Hin].
  - rewrite Z.eqb_refl. f_equal. now apply filter_id_absent.
  - destruct (ul_id a =? ul_id x) eqn:Hid.
    + apply Z.eqb_eq in Hid. exfalso. apply Hnotin. rewrite Hid. now apply in_map.
    + now apply IH.
Qed.

Lemma NoDup_ids_filter (p : user_list_row -> bool) t :
  NoDup (map ul_id t) -> NoDup (map ul_id (filter p t)).
Proof.
  induction t as [|a t IH]; simpl; intros Hnd; [constructor|].
  inversion Hnd as [|? ? Hnotin Hnd']; subst.
  destruct (p a); simpl; [|now apply IH].
  constructor; [|now apply IH].
  intros Hin. apply Hnotin. apply in_map_iff in Hin. destruct Hin as (y & Hy & Hin).
  apply filter_In in Hin. rewrite <- Hy. apply in_map. tauto.
Qed.

Lemma NoDup_ids_inj t x y :
  NoDup (map ul_id t) -> In x t -> In y t -> ul_id x = ul_id y -> x = y.
Proof.
  induction t as [|a t IH]; simpl; intros Hnd Hx Hy Heq; [contradiction|].
  inversion Hnd as [|? ? Hnotin Hnd']; subst.
  destruct Hx as [->|Hx], Hy as [->|Hy]; auto.
  - exfalso. apply Hnotin. rewrite Heq. now apply in_map.
  - exfalso. apply Hnotin. rewrite <- Heq. now apply in_map.
Qed.

(** The rows whose id is none of those in [ds]. *)
Lemma one_by_one_delete ds now : forall t s s',
  NoDup (map ul_id t) -> NoDup (map ul_id ds) -> incl ds t ->
  adjust (fun total => int4 (total - 1)) (List.length ds) now s = Ok s' ->
  one_by_one (fun x => DELETE_FROM_user_list (fun r => ul_id r =? ul_id x))
    ds now (mk_database t s) =
  Ok (mk_database
        (filter (fun r => negb (existsb (fun x => ul_id r =? ul_id x) ds)) t) s').
Proof.
  induction ds as [|d ds IH]; intros t s s' Ht Hds Hincl Ha; simpl in Ha.
  - injection Ha as <-. simpl. f_equal. f_equal. symmetry.
    now apply forallb_filter_id, forallb_forall.
  - bind_inv Ha. inversion Hds as [|? ? Hnotin Hds']; subst.
    cbn [one_by_one]. rewrite DELETE_FROM_user_list_eq.
    rewrite (filter_id_present d t Ht) by (apply Hincl; now left).
    simpl. rewrite E. simpl.
    rewrite (IH _ _ s'); auto.
    + f_equal. f_equal. clear. induction t as [|a t IHt]; simpl; [reflexivity|].
      destruct (ul_id a =? ul_id d); simpl; [exact IHt|].
      destruct (existsb _ ds); simpl; [exact IHt | now rewrite IHt].
    + now apply NoDup_ids_filter.
    + intros y Hy. apply filter_In. split; [apply Hincl; now right|].
      apply negb_true_iff, Z.eqb_neq. intros Heq. apply Hnotin.
      rewrite <- Heq. now apply in_map.
Qed.

Lemma delete_row_by_row cond now db db' :
  NoDup (map ul_id (user_list db)) ->
  DELETE_FROM_user_list cond now db = Ok db' ->
  one_by_one (fun x => DELETE_FROM_user_list (fun r => ul_id r =? ul_id x))
    (filter cond (user_list db)) now db = Ok db'.
Proof.
  destruct db as [t s]. simpl. intros Hnd H.
  rewrite DELETE_FROM_user_list_eq in H. bind_inv H. inversion H; subst.
  rewrite (one_by_one_delete _ _ _ _ x Hnd); auto.
  - f_equal. f_equal. apply filter_ext_in. intros r Hr. f_equal.
    destruct (cond r) eqn:Hc.
    + apply existsb_exists. exists r. split; [|apply Z.eqb_refl].
      apply filter_In. auto.
    + destruct (existsb _ (filter cond t)) eqn:Hex; [|reflexivity].
      apply existsb_exists in Hex. destruct Hex as (y & Hy & Heq).
      apply filter_In in Hy. destruct Hy as [Hy Hcy]. apply Z.eqb_eq in Heq.
      rewrite (NoDup_ids_inj t r y Hnd Hr Hy Heq) in Hc. congruence.
  - now apply NoDup_ids_filter.
  - apply incl_filter.
Qed.

(** ** The counter follows the ledger *)

Example scenario_history :
  history scenario (provisioned 0) = [three_members; two_members; two_members].
Proof. reflexivity. Qed.

Example scenario_counts :
  map count (history scenario (provisioned 0)) = [Some 3; Some 2; Some 2].
Proof. reflexivity. Qed.

(** A transaction that runs one mutation keeps the counter equal to the
    number of rows, whether it commits or rolls back. *)
Lemma consistent_commit m now db :
  consistent db -> consistent (commit (run_mutation m now db) db).
Proof.
  unfold consistent, count. intros H.
  destruct (run_mutation m now db) as [db'|e] eqn:Hrun; simpl; [|exact H].
  destruct (AggregateCounter db) as [r|] eqn:Hr; [|discriminate].
  simpl in H. injection H as H.
  destruct (run_mutation_Ok _ _ _ _ _ Hrun Hr) as (Hl & r' & Hr' & _ & Ht & _).
  rewrite Hr'. simpl. f_equal.
  unfold cardinality at 1. rewrite Hl, ledger_after_cardinality. lia.
Qed.

(** C1: from a state in which the counter equals the number of ledger rows,
    every sequence of insert and delete transactions leaves, after each
    transaction, [total_users] equal to the number of rows of [user_list]. *)
Theorem C1_counter_equals_cardinality (ms : list (mutation * timestamp)) (db : database) :
  consistent db -> Forall consistent (history ms db).
Proof.
  revert db. induction ms as [|[m now] ms IH]; intros db H; simpl.
  - constructor.
  - pose proof (consistent_commit m now db H) as H'.
    constructor; [exact H' | now apply IH].
Qed.

Lemma C1_counter_equals_cardinality_witness :
  consistent (provisioned 0) /\ Forall consistent (history scenario (provisioned 0)).
Proof.
  split; [reflexivity|].
  apply (C1_counter_equals_cardinality scenario (provisioned 0)). reflexivity.
Defined.

(** C2 (amended): while the counter row exists, a committed statement that
    inserts one row leaves the counter row with [total_users] one higher and
    [last_updated] the time of the transaction; one that deletes one row
    leaves it one lower, with the same time.  The new ledger and the new
    counter are the one database the transaction commits. *)
Theorem C2_adjustment_of_one_row (m : mutation) (now : timestamp)
  (db db' : database) (r : user_stats_row) :
  AggregateCounter db = Some r ->
  affected_rows m db = 1%nat ->
  run_mutation m now db = Ok db' ->
  user_list db' = ledger_after m now db /\
  AggregateCounter db' =
    Some (mk_user_stats_row 1 (total_users r + delta m) (Some now)).
Proof.
  intros Hr Hk Hrun.
  destruct (run_mutation_Ok _ _ _ _ _ Hrun Hr) as (Hl & r' & Hr' & Hid & Ht & Hnow).
  split; [exact Hl|]. rewrite Hr'. f_equal.
  rewrite Hk in Ht, Hnow. destruct r' as [i n u].
  cbn [us_id total_users last_updated] in *.
  rewrite Hid, Ht, Hnow by discriminate. f_equal. lia.
Qed.

Lemma C2_adjustment_of_one_row_witness :
  ((AggregateCounter (provisioned 0) = Some (mk_user_stats_row 1 0 (Some 0)) /\
    affected_rows (Insert [alice]) (provisioned 0) = 1%nat /\
    run_mutation (Insert [alice]) 5 (provisioned 0) = Ok one_member) /\
   user_list one_member = ledger_after (Insert [alice]) 5 (provisioned 0) /\
   AggregateCounter one_member =
     Some (mk_user_stats_row 1 (0 + delta (Insert [alice])) (Some 5))) /\
  ((AggregateCounter three_members = Some (mk_user_stats_row 1 3 (Some 5)) /\
    affected_rows (Delete is_bob) three_members = 1%nat /\
    run_mutation (Delete is_bob) 6 three_members = Ok two_members) /\
   user_list two_members = ledger_after (Delete is_bob) 6 three_members /\
   AggregateCounter two_members =
     Some (mk_user_stats_row 1 (3 + delta (Delete is_bob)) (Some 6))).
Proof.
  split.
  - split; [repeat split|].
    apply (C2_adjustment_of_one_row (Insert [alice]) 5 (provisioned 0) one_member
             (mk_user_stats_row 1 0 (Some 0))); reflexivity.
  - split; [repeat split|].
    apply (C2_adjustment_of_one_row (Delete is_bob) 6 three_members two_members
             (mk_user_stats_row 1 3 (Some 5))); reflexivity.
Defined.

(** C2, as stated, fails: with the counter row deleted, the insert of one
    row and the delete of one row both commit, and no count is incremented
    or decremented and no time is set, because there is no counter row
    before or after. *)
Lemma C2_counterexample :
  AggregateCounter two_members_no_counter = None /\
  run_mutation (Insert [dave]) 7 two_members_no_counter =
    Ok (mk_database [new_row 10 alice; new_row 11 bob; new_row 7 dave] []) /\
  AggregateCounter
    (mk_database [new_row 10 alice; new_row 11 bob; new_row 7 dave] []) = None /\
  run_mutation (Delete is_bob) 8 two_members_no_counter =
    Ok (mk_database [new_row 10 alice] []) /\
  AggregateCounter (mk_database [new_row 10 alice] []) = None.
Proof. repeat split. Qed.

Example insert_one_member :
  run_mutation (Insert [alice]) 5 (provisioned 0) =
  Ok (mk_database [new_row 5 alice] [mk_user_stats_row 1 1 (Some 5)]).
Proof. reflexivity. Qed.

(** C10 (amended): while the counter row exists, a committed statement that
    affects [k] rows has adjusted the counter once per row: [total_users] is
    higher by [k] after an insert and lower by [k] after a delete, and the
    database is the one that [k] single-row statements on the same rows
    leave (for a delete, the rows are named by their primary key). *)
Theorem C10_once_per_affected_row (m : mutation) (now : timestamp)
  (db db' : database) (r : user_stats_row) :
  AggregateCounter db = Some r ->
  run_mutation m now db = Ok db' ->
  count db' = Some (total_users r + Z.of_nat (affected_rows m db) * delta m) /\
  user_list db' = ledger_after m now db /\
  (NoDup (map ul_id (user_list db)) -> row_by_row m now db = Ok db').
Proof.
  intros Hr Hrun.
  destruct (run_mutation_Ok _ _ _ _ _ Hrun Hr) as (Hl & r' & Hr' & _ & Ht & _).
  split; [|split].
  - unfold count. rewrite Hr'. simpl. now rewrite Ht.
  - exact Hl.
  - intros Hnd. destruct m as [vals|cond]; simpl in *.
    + now apply insert_row_by_row.
    + now apply delete_row_by_row.
Qed.

Lemma NoDup_ids_three_members : NoDup (map ul_id (user_list three_members)).
Proof. repeat constructor; simpl; intuition discriminate. Qed.

Lemma C10_once_per_affected_row_witness :
  ((AggregateCounter (provisioned 0) = Some (mk_user_stats_row 1 0 (Some 0)) /\
    run_mutation (Insert [alice; bob; carol]) 5 (provisioned 0) = Ok three_members /\
    NoDup (map ul_id (user_list (provisioned 0)))) /\
   count three_members = Some (0 + 3 * 1) /\
   user_list three_members
     = ledger_after (Insert [alice; bob; carol]) 5 (provisioned 0) /\
   row_by_row (Insert [alice; bob; carol]) 5 (provisioned 0) = Ok three_members) /\
  ((AggregateCounter three_members = Some (mk_user_stats_row 1 3 (Some 5)) /\
    run_mutation (Delete is_not_bob) 8 three_members = Ok only_bob /\
    NoDup (map ul_id (user_list three_members))) /\
   count only_bob = Some (3 + 2 * -1) /\
   user_list only_bob = ledger_after (Delete is_not_bob) 8 three_members /\
   row_by_row (Delete is_not_bob) 8 three_members = Ok only_bob).
Proof.
  split.
  - split; [split; [reflexivity | split; [reflexivity | constructor]]|].
    destruct (C10_once_per_affected_row (Insert [alice; bob; carol]) 5 (provisioned 0)
                three_members (mk_user_stats_row 1 0 (Some 0)) eq_refl eq_refl)
      as (Hcount & Hledger & Hrows).
    split; [exact Hcount | split; [exact Hledger | apply Hrows; constructor]].
  - split; [split; [reflexivity | split; [reflexivity | apply NoDup_ids_three_members]]|].
    destruct (C10_once_per_affected_row (Delete is_not_bob) 8 three_members
                only_bob (mk_user_stats_row 1 3 (Some 5)) eq_refl eq_refl)
      as (Hcount & Hledger & Hrows).
    split; [exact Hcount | split; [exact Hledger|]].
    apply Hrows. apply NoDup_ids_three_members.
Defined.

(** C10, as stated, fails: with the counter row deleted, an insert of two
    rows and a delete of two rows both commit, and no count changes by two,
    because there is no counter row before or after. *)
Lemma C10_counterexample :
  count two_members_no_counter = None /\
  run_mutation (Insert [carol; dave]) 7 two_members_no_counter =
    Ok (mk_database
          [new_row 10 alice; new_row 11 bob; new_row 7 carol; new_row 7 dave] []) /\
  count (mk_database
           [new_row 10 alice; new_row 11 bob; new_row 7 carol; new_row 7 dave] [])
    = None /\
  run_mutation (Delete (fun _ => true)) 8 two_members_no_counter =
    Ok (mk_database [] []) /\
  count (mk_database [] []) = None.
Proof. repeat split. Qed.

Example bulk_delete_two :
  run_mutation (Delete (fun r => negb (is_bob r))) 8 three_members =
  Ok (mk_database [new_row 5 bob] [mk_user_stats_row 1 1 (Some 8)]) /\
  row_by_row (Delete (fun r => negb (is_bob r))) 8 three_members =
  Ok (mk_database [new_row 5 bob] [mk_user_stats_row 1 1 (Some 8)]).
Proof. split; reflexivity. Qed.

(** ** Reconciliation *)

(** The function fails only when the row count does not fit [INTEGER];
    otherwise every row with [id = 1] receives the count and the time. *)
Lemma recalculate_user_count_eq now db :
  recalculate_user_count now db =
  (n <- int4 (cardinality db) ;;
   Ok (mk_database (user_list db) (overwrite n now (user_stats db)), n)).
Proof.
  unfold recalculate_user_count, cardinality.
  destruct (int4 _) as [n|e]; simpl; [|reflexivity].
  now rewrite UPDATE_user_stats_const.
Qed.

Lemma recalculate_user_count_Ok now db n :
  int4 (cardinality db) = Ok n ->
  recalculate_user_count now db =
  Ok (mk_database (user_list db) (overwrite n now (user_stats db)), n).
Proof. intros H. now rewrite recalculate_user_count_eq, H. Qed.

Lemma recalculate_user_count_Raise now db e :
  int4 (cardinality db) = Raise e -> recalculate_user_count now db = Raise e.
Proof. intros H. now rewrite recalculate_user_count_eq, H. Qed.

(** Overwriting twice with the same count stores the same counts. *)
Lemma overwrite_twice n now1 now2 s :
  map total_users (overwrite n now2 (overwrite n now1 s)) =
  map total_users (overwrite n now1 s).
Proof.
  unfold overwrite. rewrite !map_map. apply map_ext. intros r.
  destruct (us_id r =? 1) eqn:Hid; simpl; rewrite Hid; reflexivity.
Qed.

(** Without a row with [id = 1] there is nothing to overwrite. *)
Lemma overwrite_absent n now s : WHERE_id_1 s = [] -> overwrite n now s = s.
Proof.
  unfold WHERE_id_1, overwrite. induction s as [|a s IH]; simpl; intros H; [reflexivity|].
  destruct (us_id a =? 1); [discriminate|]. now rewrite IH.
Qed.

(** C3 (amended): for every ledger whose number of rows fits [INTEGER] and
    every stored counter value and time, [recalculate_user_count] overwrites
    the counter with the number of rows and the time of the call, and
    returns that number. *)
Theorem C3_reconciliation_restores_count (t : list user_list_row)
  (stored : Z) (stamp : option timestamp) (now : timestamp) :
  Z.of_nat (List.length t) <= INT4_MAX ->
  recalculate_user_count now (mk_database t [mk_user_stats_row 1 stored stamp]) =
  Ok (mk_database t [mk_user_stats_row 1 (Z.of_nat (List.length t)) (Some now)],
      Z.of_nat (List.length t)).
Proof.
  intros Hfit. rewrite (recalculate_user_count_Ok _ _ (Z.of_nat (List.length t))).
  - reflexivity.
  - apply int4_in. unfold in_int4, INT4_MIN, cardinality. simpl. split; [lia | exact Hfit].
Qed.

Lemma C3_reconciliation_restores_count_witness :
  Z.of_nat (List.length (user_list two_members)) <= INT4_MAX /\
  recalculate_user_count 9
    (mk_database (user_list two_members) [mk_user_stats_row 1 (-77) None]) =
  Ok (mk_database (user_list two_members) [mk_user_stats_row 1 2 (Some 9)], 2).
Proof.
  split; [vm_compute; discriminate|].
  apply (C3_reconciliation_restores_count (user_list two_members) (-77) None 9).
  vm_compute. discriminate.
Defined.

(** The crowded ledger satisfies the schema. *)
Lemma numeral_not_empty p : numeral p <> EmptyString.
Proof. destruct p; discriminate. Qed.

Lemma numeral_inj p q : numeral p = numeral q -> p = q.
Proof.
  revert q. induction p as [p IH|p IH|]; intros [q|q|] H; simpl in H;
    inversion H as [H']; try reflexivity;
    try (f_equal; now apply IH);
    try (exfalso; now apply (numeral_not_empty p));
    try (exfalso; symmetry in H'; now apply (numeral_not_empty q)).
Qed.

Lemma NoDup_map_injective {A B : Type} (f : A -> B) (l : list A) :
  (forall x y, f x = f y -> x = y) -> NoDup l -> NoDup (map f l).
Proof.
  intros Hinj Hnd. induction Hnd as [|x l Hnotin Hnd IH]; simpl; constructor; auto.
  intros Hin. apply in_map_iff in Hin. destruct Hin as (y & Hy & Hin).
  apply Hinj in Hy. now subst.
Qed.

Lemma two_to_31_Z : Z.of_nat two_to_31 = 2147483648.
Proof. unfold two_to_31. apply Z2Nat.id. discriminate. Qed.

Lemma crowded_cardinality : cardinality crowded = 2147483648.
Proof.
  unfold cardinality, crowded. cbn [user_list].
  now rewrite length_map, length_seq, two_to_31_Z.
Qed.

Lemma members_schema_ok (N : nat) :
  Z.of_nat N <= 2147483648 ->
  schema_ok (mk_database (map member (seq 0 N)) [mk_user_stats_row 1 0 None]).
Proof.
  intros HN. unfold schema_ok. cbn [user_list user_stats].
  rewrite !map_map. cbn [ul_id username email member].
  pose proof (seq_NoDup N 0) as Hnd.
  repeat split.
  - apply NoDup_map_injective; [apply Nat2Z.inj | exact Hnd].
  - apply NoDup_map_injective; [|exact Hnd].
    intros x y H. apply numeral_inj in H. now apply SuccNat2Pos.inj.
  - apply NoDup_map_injective; [|exact Hnd].
    intros x y H. injection H as H. apply numeral_inj in H. now apply SuccNat2Pos.inj.
  - apply Forall_map, Forall_forall. intros n Hn. apply in_seq in Hn.
    cbn [ul_id member]. unfold in_int4, INT4_MIN, INT4_MAX. lia.
  - repeat constructor. intros [].
  - repeat constructor; unfold INT4_MIN, INT4_MAX; cbn [total_users]; lia.
Qed.

Lemma crowded_schema_ok : schema_ok crowded.
Proof.
  unfold crowded. apply members_schema_ok. rewrite two_to_31_Z. apply Z.le_refl.
Qed.

(** C3, as stated, fails on a ledger of 2^31 members: the count does not fit
    [actual_count INTEGER], the function raises, and the counter keeps its
    old value. *)
Lemma C3_counterexample :
  schema_ok crowded /\
  cardinality crowded = 2147483648 /\
  recalculate_user_count 0 crowded = Raise numeric_value_out_of_range /\
  count (commit (SELECT_recalculate 0 crowded) crowded) = Some 0.
Proof.
  assert (H : recalculate_user_count 0 crowded = Raise numeric_value_out_of_range).
  { apply recalculate_user_count_Raise. rewrite crowded_cardinality. reflexivity. }
  split; [apply crowded_schema_ok|].
  split; [apply crowded_cardinality|].
  split; [exact H|].
  unfold SELECT_recalculate. rewrite H. reflexivity.
Qed.

(** C8: two reconciliations in a row, with no mutation between them, hand
    the same value to the caller (the row count, when it fits [INTEGER]) and
    leave the same stored counts; only the time may differ. *)
Theorem C8_reconciliation_is_stable (db : database) (now1 now2 : timestamp) :
  let db1 := commit (SELECT_recalculate now1 db) db in
  let db2 := commit (SELECT_recalculate now2 db1) db1 in
  returned (recalculate_user_count now2 db1) = returned (recalculate_user_count now1 db) /\
  returned (recalculate_user_count now1 db) = int4 (cardinality db) /\
  map total_users (user_stats db2) = map total_users (user_stats db1) /\
  user_list db2 = user_list db.
Proof.
  cbv zeta. unfold SELECT_recalculate, returned.
  destruct (int4 (cardinality db)) as [n|e] eqn:Hn.
  - rewrite (recalculate_user_count_Ok now1 db n Hn). cbn [bind fst snd commit].
    rewrite (recalculate_user_count_Ok now2
               (mk_database (user_list db) (overwrite n now1 (user_stats db))) n Hn).
    cbn [bind fst snd commit user_list user_stats].
    split; [reflexivity|]. split; [reflexivity|]. split; [|reflexivity].
    apply overwrite_twice.
  - rewrite (recalculate_user_count_Raise now1 db e Hn). cbn [bind commit].
    rewrite (recalculate_user_count_Raise now2 db e Hn). cbn [bind commit].
    auto.
Qed.

Example reconcile_twice :
  recalculate_user_count 8 (mk_database (user_list two_members) [mk_user_stats_row 1 40 None])
    = Ok (mk_database (user_list two_members) [mk_user_stats_row 1 2 (Some 8)], 2) /\
  recalculate_user_count 9 (mk_database (user_list two_members) [mk_user_stats_row 1 2 (Some 8)])
    = Ok (mk_database (user_list two_members) [mk_user_stats_row 1 2 (Some 9)], 2).
Proof. split; reflexivity. Qed.

(** ** A missing counter row *)

(** With no row to update, the trigger function succeeds and leaves the
    database as it found it. *)
Lemma update_user_count_absent tg_op NEW OLD now db :
  SELECT_FROM_user_stats db = [] ->
  exists ret, update_user_count tg_op NEW OLD now db = Ok (db, ret).
Proof.
  unfold SELECT_FROM_user_stats. intros H. destruct db as [t s]. simpl in H.
  destruct tg_op; simpl; try rewrite (UPDATE_user_stats_absent _ _ _ H); simpl; eauto.
Qed.

(** The statement on the ledger alone fails only on a value that is too
    long or on a unique index. *)
Lemma ledger_statement_Raise m now t e :
  ledger_statement m now t = Raise e ->
  e = string_data_right_truncation \/ e = unique_violation.
Proof.
  destruct m as [vals|cond]; simpl; [|discriminate].
  destruct (assign_all vals) as [stored|e1] eqn:Hs; simpl; intros H.
  - right. eapply insert_rows_Raise; eauto.
  - left. inversion H; subst. eapply assign_all_Raise; eauto.
Qed.

(** C5 (amended): while [user_stats] has no row with [id = 1], the triggered
    adjustment updates zero rows and raises nothing: the outcome of an
    insert or delete is that of the statement on the ledger alone (a delete
    commits; an insert commits unless a value is too long for
    [VARCHAR(255)] or a unique index rejects a row), and a committed
    mutation changes the ledger and leaves [user_stats] as it was. *)
Theorem C5_missing_row_mutation_commits (m : mutation) (now : timestamp) (db : database) :
  SELECT_FROM_user_stats db = [] ->
  run_mutation m now db =
    (t <- ledger_statement m now (user_list db) ;; Ok (mk_database t (user_stats db))) /\
  (forall e, run_mutation m now db = Raise e ->
     (e = string_data_right_truncation \/ e = unique_violation) /\
     exists vals, m = Insert vals).
Proof.
  unfold SELECT_FROM_user_stats. intros H.
  assert (Heq : run_mutation m now db =
                (t <- ledger_statement m now (user_list db) ;;
                 Ok (mk_database t (user_stats db)))).
  { destruct db as [t s]. simpl in *. destruct m as [vals|cond]; simpl.
    - rewrite INSERT_INTO_user_list_eq.
      destruct (assign_all vals) as [stored|e]; simpl; [|reflexivity].
      destruct (insert_rows _ t) as [t'|e]; simpl; [|reflexivity].
      now rewrite (adjust_absent _ _ _ _ H).
    - rewrite DELETE_FROM_user_list_eq. now rewrite (adjust_absent _ _ _ _ H). }
  split; [exact Heq|]. intros e He. rewrite Heq in He.
  destruct (ledger_statement m now (user_list db)) as [t|e'] eqn:Hl; [discriminate|].
  simpl in He. inversion He; subst. split.
  - eapply ledger_statement_Raise; eauto.
  - destruct m as [vals|cond]; [eauto | discriminate].
Qed.

Lemma C5_missing_row_mutation_commits_witness :
  SELECT_FROM_user_stats two_members_no_counter = [] /\
  run_mutation (Insert [carol]) 7 two_members_no_counter =
  (t <- ledger_statement (Insert [carol]) 7 (user_list two_members_no_counter) ;;
   Ok (mk_database t (user_stats two_members_no_counter))).
Proof.
  split; [reflexivity|].
  apply (C5_missing_row_mutation_commits (Insert [carol]) 7 two_members_no_counter).
  reflexivity.
Defined.

(** C5, as stated, fails: with the counter row deleted, an insert and a
    delete both commit; the ledger changes and nothing is raised. *)
Lemma C5_counterexample :
  SELECT_FROM_user_stats two_members_no_counter = [] /\
  run_mutation (Insert [carol]) 7 two_members_no_counter =
    Ok (mk_database [new_row 10 alice; new_row 11 bob; new_row 7 carol] []) /\
  run_mutation (Delete is_bob) 7 two_members_no_counter =
    Ok (mk_database [new_row 10 alice] []).
Proof. repeat split. Qed.

(** ** Duplicate natural keys *)

Lemma conflicts_natural_key r x :
  username x = username r \/ email x = email r -> conflicts r x = true.
Proof.
  unfold conflicts. intros [H|H]; rewrite H, String.eqb_refl;
    rewrite ?orb_true_r; reflexivity.
Qed.

Lemma insert_rows_duplicate rows r x : forall t,
  In r rows -> In x t -> conflicts r x = true ->
  insert_rows rows t = Raise unique_violation.
Proof.
  induction rows as [|a rows IH]; simpl; intros t Hr Hx Hc; [contradiction|].
  unfold insert_row.
  destruct (existsb (conflicts a) t) eqn:Hex; simpl; [reflexivity|].
  destruct Hr as [->|Hr].
  - assert (existsb (conflicts r) t = true) by (apply existsb_exists; eauto).
    congruence.
  - apply IH; auto. apply in_or_app. now left.
Qed.

Lemma INSERT_INTO_user_list_duplicate vals v x now db :
  Forall fits vals ->
  In v vals ->
  In x (user_list db) ->
  username x = v_username v \/ email x = v_email v ->
  INSERT_INTO_user_list vals now db = Raise unique_violation.
Proof.
  intros Hfit Hv Hx Hkey. unfold INSERT_INTO_user_list.
  rewrite (assign_all_fits vals Hfit). cbn [bind].
  rewrite (insert_rows_duplicate _ (new_row now v) x); auto.
  - now apply in_map.
  - now apply conflicts_natural_key.
Qed.

(** A statement with a value that is too long raises "value too long"
    whatever else it holds. *)
Lemma INSERT_INTO_user_list_too_long vals now db e :
  assign_all vals = Raise e ->
  INSERT_INTO_user_list vals now db = Raise string_data_right_truncation.
Proof.
  intros H. unfold INSERT_INTO_user_list. rewrite H. simpl.
  now rewrite (assign_all_Raise _ _ H).
Qed.

(** C6 (amended): an insert whose values all fit [VARCHAR(255)] and which
    holds a row whose [username] or [email] is that of a stored member
    raises a unique violation; the transaction rolls back, so the database,
    and with it the counter, is the one from before. *)
Theorem C6_duplicate_member_rejected (vals : list VALUES) (v : VALUES)
  (x : user_list_row) (now : timestamp) (db : database) :
  Forall fits vals ->
  In v vals ->
  In x (user_list db) ->
  username x = v_username v \/ email x = v_email v ->
  INSERT_INTO_user_list vals now db = Raise unique_violation /\
  commit (INSERT_INTO_user_list vals now db) db = db /\
  count (commit (INSERT_INTO_user_list vals now db) db) = count db.
Proof.
  intros Hfit Hv Hx Hkey.
  rewrite (INSERT_INTO_user_list_duplicate vals v x now db Hfit Hv Hx Hkey).
  simpl. auto.
Qed.

Lemma fits_alice_again : fits alice_again.
Proof. split; simpl; lia. Qed.

Lemma C6_duplicate_member_rejected_witness :
  (Forall fits [alice_again] /\
   In alice_again [alice_again] /\
   In (new_row 5 alice) (user_list two_members) /\
   (username (new_row 5 alice) = v_username alice_again \/
    email (new_row 5 alice) = v_email alice_again)) /\
  INSERT_INTO_user_list [alice_again] 7 two_members = Raise unique_violation /\
  commit (INSERT_INTO_user_list [alice_again] 7 two_members) two_members = two_members /\
  count (commit (INSERT_INTO_user_list [alice_again] 7 two_members) two_members)
    = count two_members.
Proof.
  assert (Hfit : Forall fits [alice_again]).
  { constructor; [apply fits_alice_again | constructor]. }
  split; [split; [exact Hfit | split; [left; reflexivity | split; left; reflexivity]]|].
  apply (C6_duplicate_member_rejected [alice_again] alice_again (new_row 5 alice) 7 two_members).
  - exact Hfit.
  - left; reflexivity.
  - left; reflexivity.
  - left; reflexivity.
Defined.

(** C6, as stated, fails: an insert with the username of a stored member
    and an email of 256 characters is refused by the length coercion of
    [VARCHAR(255)], before any unique index is consulted; the error is
    "value too long" and not the unique violation. *)
Lemma C6_counterexample :
  In (new_row 5 alice) (user_list two_members) /\
  username (new_row 5 alice) = v_username alice_long_email /\
  INSERT_INTO_user_list [alice_long_email] 7 two_members
    = Raise string_data_right_truncation /\
  INSERT_INTO_user_list [alice_long_email] 7 two_members <> Raise unique_violation.
Proof.
  assert (H : INSERT_INTO_user_list [alice_long_email] 7 two_members
              = Raise string_data_right_truncation) by (vm_compute; reflexivity).
  split; [left; reflexivity|]. split; [reflexivity|]. split; [exact H|].
  rewrite H. discriminate.
Qed.

(** The caller of [query] receives the error with code 23505, the one
    [addSampleData] tests for. *)
Lemma duplicate_member_thrown (v : VALUES) (x : user_list_row) (db : database)
  (now : timestamp) :
  fits v ->
  In x (user_list db) ->
  username x = v_username v \/ email x = v_email v ->
  query (INSERT_username_email v) (mk_world connected None db now) =
  (mk_world connected None db now, Throw (DatabaseError unique_violation)) /\
  code (DatabaseError unique_violation) = Some "23505"%string.
Proof.
  intros Hfit Hx Hkey. split; [|reflexivity].
  unfold query, pool_query. simpl.
  rewrite (INSERT_INTO_user_list_duplicate [v] v x now db); auto.
  now left.
Qed.

(** ** The read path *)

(** With the row in place, a connected and reachable read returns it and
    touches nothing. *)
Lemma getUserCount_present (db : database) (now : timestamp) (r : user_stats_row) :
  AggregateCounter db = Some r ->
  getUserCount (mk_world connected None db now) =
  (mk_world connected None db now, Return (Some (columns r))).
Proof.
  unfold AggregateCounter, getUserCount, js_bind, query, pool_query. simpl.
  destruct (SELECT_FROM_user_stats db) as [|x l]; simpl; intros H; [discriminate|].
  now inversion H.
Qed.

(** The fallback does run the reconciliation: with no row selected, the read
    is the reconciliation query followed by the same [SELECT]. *)
Lemma getUserCount_fallback (db : database) (now : timestamp) :
  SELECT_FROM_user_stats db = [] ->
  getUserCount (mk_world connected None db now) =
  (_ <~ query SELECT_recalculate_user_count ;;
   recalcRows <~ query SELECT_total_users_last_updated ;;
   js_return (hd_error recalcRows)) (mk_world connected None db now).
Proof.
  intros H. unfold getUserCount at 1, js_bind at 1, query at 1, pool_query.
  simpl. rewrite H. reflexivity.
Qed.

(** The reconciliation updates a row and never inserts one, so with the row
    absent the second [SELECT] is empty as well and [rows[0]] is
    [undefined]. *)
Lemma getUserCount_absent (db : database) (now : timestamp) :
  SELECT_FROM_user_stats db = [] ->
  in_int4 (cardinality db) ->
  getUserCount (mk_world connected None db now) =
  (mk_world connected None db now, Return None).
Proof.
  intros H Hfit. rewrite (getUserCount_fallback db now H).
  unfold js_bind, query, pool_query, set_storage. simpl.
  rewrite (recalculate_user_count_Ok now db _ (int4_in _ Hfit)).
  unfold SELECT_FROM_user_stats in *. rewrite (overwrite_absent _ _ _ H).
  destruct db as [t s]. simpl in *. rewrite H. reflexivity.
Qed.

(** C4 fails on the code: with the counter row deleted and two members in
    the ledger, [getUserCount] runs the reconciliation, which restores
    nothing, and returns [undefined]; the route answers 500.  The count 2 is
    never returned and [user_stats] stays empty. *)
Theorem C4_fallback_returns_undefined :
  let w := mk_world connected None two_members_no_counter 20 in
  cardinality two_members_no_counter = 2 /\
  SELECT_FROM_user_stats two_members_no_counter = [] /\
  recalculate_user_count 20 two_members_no_counter = Ok (two_members_no_counter, 2) /\
  getUserCount w = (w, Return None) /\
  handle api_usercount w =
    (w, mk_reply 500
          (error_body "Internal Server Error" "Failed to retrieve user count" 20)).
Proof. repeat split. Qed.

(** ** Unreachable storage *)

(** Every query of a connected pool fails with the driver's error while the
    server cannot be reached. *)
Lemma query_unreachable {A : Type} (text : sql A) error db now :
  query text (mk_world connected (Some error) db now) =
  (mk_world connected (Some error) db now, Throw error).
Proof. reflexivity. Qed.

(** C7 fails on the code: when the storage cannot be reached, whatever the
    driver's error, the route's own [catch] answers 500 "Internal Server
    Error" with a fixed message, so the error never reaches the error
    handler that maps connection errors to 503. *)
Theorem C7_unreachable_storage_answers_500 (error : Error) (db : database)
  (now : timestamp) :
  let w := mk_world connected (Some error) db now in
  handle api_usercount w =
    (w, mk_reply 500
          (error_body "Internal Server Error" "Failed to retrieve user count" now)) /\
  ~ service_unavailable (snd (handle api_usercount w)).
Proof. split; [reflexivity | discriminate]. Qed.

(** The sibling paths do answer 503 for the same failure. *)
Example errorHandler_ECONNREFUSED :
  errorHandler ECONNREFUSED 20 =
  mk_reply 503 (error_body "Service Unavailable" "Database connection failed" 20).
Proof. reflexivity. Qed.

Example health_unreachable :
  snd (handle health_route (mk_world connected (Some ECONNREFUSED) two_members 20)) =
  mk_reply 503 (health_body (unhealthy "connect ECONNREFUSED 127.0.0.1:5432") 20).
Proof. reflexivity. Qed.

Example usercount_unreachable :
  snd (handle api_usercount (mk_world connected (Some ECONNREFUSED) two_members 20)) =
  mk_reply 500 (error_body "Internal Server Error" "Failed to retrieve user count" 20).
Proof. reflexivity. Qed.

Example usercount_reachable :
  snd (handle api_usercount (mk_world connected None two_members 20)) =
  mk_reply 200 (usercount_body 2 (Some 6)).
Proof. reflexivity. Qed.

(** ** The single counter row *)

Lemma run_mutation_ids m now db db' :
  run_mutation m now db = Ok db' ->
  map us_id (user_stats db') = map us_id (user_stats db).
Proof.
  destruct m as [vals|cond]; simpl; intros H.
  - apply INSERT_INTO_user_list_Ok in H. destruct H as (_ & _ & H & _).
    eapply adjust_ids; eauto.
  - apply DELETE_FROM_user_list_Ok in H. destruct H as (_ & H).
    eapply adjust_ids; eauto.
Qed.

Lemma AggregateCounter_single db r :
  user_stats db = [r] -> us_id r = 1 -> AggregateCounter db = Some r.
Proof.
  unfold AggregateCounter, SELECT_FROM_user_stats, WHERE_id_1.
  intros -> Hid. simpl. now rewrite Hid.
Qed.

Lemma counter_tracks_ledger_mutation m now db :
  counter_tracks_ledger db ->
  counter_tracks_ledger (commit (run_mutation m now db) db).
Proof.
  intros (r & Hs & Hid & Ht).
  destruct (run_mutation m now db) as [db'|e] eqn:Hrun; simpl; [|exists r; auto].
  pose proof (AggregateCounter_single _ _ Hs Hid) as Hr.
  destruct (run_mutation_Ok _ _ _ _ _ Hrun Hr) as (Hl & r' & Hr' & Hid' & Ht' & _).
  pose proof (run_mutation_ids _ _ _ _ Hrun) as Hids. rewrite Hs in Hids.
  destruct (user_stats db') as [|a [|b l]] eqn:Hs'; try discriminate.
  injection Hids as Ha. rewrite Hid in Ha.
  rewrite (AggregateCounter_single _ _ Hs' Ha) in Hr'. injection Hr' as ->.
  exists r'. repeat split; auto.
  unfold cardinality at 1. rewrite Hl, ledger_after_cardinality. lia.
Qed.

Lemma counter_tracks_ledger_recalculate now db :
  counter_tracks_ledger db ->
  counter_tracks_ledger (commit (SELECT_recalculate now db) db).
Proof.
  intros (r & Hs & Hid & Ht). unfold SELECT_recalculate.
  destruct (int4 (cardinality db)) as [n|e] eqn:Hn.
  - rewrite (recalculate_user_count_Ok now db n Hn). simpl.
    apply int4_Ok in Hn. destruct Hn as [-> _].
    rewrite Hs. unfold overwrite. simpl. rewrite Hid. simpl.
    eexists. split; [reflexivity|]. split; reflexivity.
  - rewrite (recalculate_user_count_Raise now db e Hn). simpl. exists r. auto.
Qed.

Lemma counter_tracks_ledger_schema now db :
  counter_tracks_ledger db ->
  counter_tracks_ledger (commit (schema_sql now db) db).
Proof.
  intros (r & Hs & Hid & Ht).
  unfold schema_sql, INSERT_INTO_user_stats_ON_CONFLICT_DO_NOTHING.
  rewrite Hs. simpl. rewrite Hid. simpl. exists r. auto.
Qed.

Lemma counter_tracks_ledger_provisioned now :
  counter_tracks_ledger (provisioned now).
Proof. eexists. repeat split. Qed.

Lemma query_preserves {A : Type} (text : sql A) : preserves (query text).
Proof.
  intros w H. unfold query.
  destruct (negb (pool (dbConnection w)) || negb (isConnected (dbConnection w)));
    [exact H|].
  unfold pool_query. destruct (unreachable w); [exact H|].
  destruct text; try exact H.
  - pose proof (counter_tracks_ledger_recalculate (clock w) _ H) as H'.
    unfold SELECT_recalculate in H'.
    destruct (recalculate_user_count (clock w) (storage w)) as [[db n]|e]; exact H'.
  - pose proof (counter_tracks_ledger_mutation (Insert [v]) (clock w) _ H) as H'.
    simpl in H'.
    destruct (INSERT_INTO_user_list [v] (clock w) (storage w)); exact H'.
Qed.

Lemma js_return_preserves {A : Type} (a : A) : preserves (js_return a).
Proof. intros w H. exact H. Qed.

Lemma js_bind_preserves {A B : Type} (m : js A) (k : A -> js B) :
  preserves m -> (forall a, preserves (k a)) -> preserves (js_bind m k).
Proof.
  intros Hm Hk w H. unfold js_bind. specialize (Hm w H).
  destruct (m w) as [w' [a|error]]; simpl in *; [now apply Hk | exact Hm].
Qed.

Lemma getUserCount_preserves : preserves getUserCount.
Proof.
  unfold getUserCount. apply js_bind_preserves; [apply query_preserves|].
  intros rows. destruct (List.length rows =? 0)%nat.
  - apply js_bind_preserves; [apply query_preserves|]. intros _.
    apply js_bind_preserves; [apply query_preserves|]. intros recalcRows.
    apply js_return_preserves.
  - apply js_return_preserves.
Qed.

Lemma api_usercount_storage w :
  storage (fst (handle api_usercount w)) = storage (fst (getUserCount w)).
Proof.
  unfold handle, api_usercount.
  destruct (getUserCount w) as [w' [[stats|]|error]]; reflexivity.
Qed.

Lemma step_counter_tracks_ledger db db' :
  step db db' -> counter_tracks_ledger db -> counter_tracks_ledger db'.
Proof.
  intros Hstep H. destruct Hstep.
  - now apply counter_tracks_ledger_mutation.
  - now apply counter_tracks_ledger_recalculate.
  - now apply counter_tracks_ledger_schema.
  - now apply query_preserves.
  - now apply getUserCount_preserves.
  - rewrite api_usercount_storage. now apply getUserCount_preserves.
Qed.

Lemma reachable_counter_tracks_ledger db :
  reachable db -> counter_tracks_ledger db.
Proof.
  induction 1 as [now|db db' _ IH Hstep].
  - apply counter_tracks_ledger_provisioned.
  - eapply step_counter_tracks_ledger; eauto.
Qed.

(** C9: in every state reached from the provisioned database by mutations,
    reconciliations, runs of the schema script, queries and count reads,
    [user_stats] holds exactly one row, with [id = 1] and a count that is
    not negative. *)
Theorem C9_single_counter_row (db : database) :
  reachable db -> single_counter_row db.
Proof.
  intros H. destruct (reachable_counter_tracks_ledger db H) as (r & Hs & Hid & Ht).
  exists r. repeat split; auto. rewrite Ht. unfold cardinality. lia.
Qed.

Lemma C9_single_counter_row_witness :
  reachable two_members /\ single_counter_row two_members.
Proof.
  assert (H : reachable two_members).
  { apply (reachable_step three_members).
    - apply (reachable_step (provisioned 0)).
      + apply reachable_provisioned.
      + exact (step_mutation (Insert [alice; bob; carol]) 5 (provisioned 0)).
    - exact (step_mutation (Delete is_bob) 6 three_members). }
  split; [exact H|].
  apply (C9_single_counter_row two_members). exact H.
Defined.

(** * Further properties of the schema *)

(** ** The unique indexes *)

Lemma conflicts_false r x :
  conflicts r x = false <->
  ul_id x <> ul_id r /\ username x <> username r /\ email x <> email r.
Proof.
  unfold conflicts. rewrite !orb_false_iff, Z.eqb_neq, !String.eqb_neq. tauto.
Qed.

Lemma no_conflict_iff r t :
  existsb (conflicts r) t = false <->
  ~ In (ul_id r) (map ul_id t) /\ ~ In (username r) (map username t) /\
  ~ In (email r) (map email t).
Proof.
  induction t as [|a t IH]; simpl.
  - tauto.
  - rewrite orb_false_iff, conflicts_false, IH. tauto.
Qed.

Lemma NoDup_snoc {A : Type} (l : list A) (a : A) :
  NoDup (l ++ [a]) <-> NoDup l /\ ~ In a l.
Proof.
  split.
  - intros H. split.
    + now apply NoDup_app_remove_r in H.
    + apply NoDup_remove_2 in H. now rewrite app_nil_r in H.
  - intros [Hl Ha]. apply NoDup_app; auto.
    + repeat constructor. intros [].
    + intros x Hx [<-|[]]. contradiction.
Qed.

Lemma keys_unique_snoc t r :
  keys_unique (t ++ [r]) <-> keys_unique t /\ existsb (conflicts r) t = false.
Proof.
  unfold keys_unique. rewrite !map_app. simpl.
  rewrite !NoDup_snoc, no_conflict_iff. tauto.
Qed.

Lemma keys_unique_app_l t t' : keys_unique (t ++ t') -> keys_unique t.
Proof.
  unfold keys_unique. rewrite !map_app. intros (H1 & H2 & H3).
  repeat split; eapply NoDup_app_remove_r; eauto.
Qed.

(** An insert passes the unique indexes of a valid table exactly when the
    table with the new rows appended is still unique in id, username and
    email. *)
Theorem insert_rows_iff_keys_unique (rows t : list user_list_row) :
  keys_unique t ->
  (insert_rows rows t = Ok (t ++ rows) <-> keys_unique (t ++ rows)).
Proof.
  revert t. induction rows as [|r rows IH]; intros t Ht; simpl.
  - rewrite app_nil_r. tauto.
  - replace (t ++ r :: rows) with ((t ++ [r]) ++ rows)
      by (rewrite <- app_assoc; reflexivity).
    unfold insert_row. destruct (existsb (conflicts r) t) eqn:Hc; simpl.
    + split; [discriminate|]. intros H. apply keys_unique_app_l in H.
      apply keys_unique_snoc in H. destruct H as [_ H]. congruence.
    + apply IH. apply keys_unique_snoc. auto.
Qed.

Lemma insert_rows_iff_keys_unique_witness :
  keys_unique (user_list two_members) /\
  (insert_rows [new_row 7 bob] (user_list two_members)
     = Ok (user_list two_members ++ [new_row 7 bob]) <->
   keys_unique (user_list two_members ++ [new_row 7 bob])).
Proof.
  assert (H : keys_unique (user_list two_members)).
  { unfold keys_unique. simpl.
    repeat split; repeat constructor; simpl; intuition discriminate. }
  split; [exact H|].
  apply (insert_rows_iff_keys_unique [new_row 7 bob] (user_list two_members)).
  exact H.
Defined.

(** ** The outcome of a mutation *)

Lemma int4_in_int4b z : int4 z = if in_int4b z then Ok z else Raise numeric_value_out_of_range.
Proof. reflexivity. Qed.

Lemma in_int4b_true z : in_int4b z = true <-> in_int4 z.
Proof.
  unfold in_int4b, in_int4. rewrite andb_true_iff, !Z.leb_le. tauto.
Qed.

(** [k] adjustments of a single counter row by [d] (one up or one down):
    they succeed together when the last value is in range. *)
Lemma adjust_counter (d : Z) (k : nat) (now : timestamp) : forall t ts,
  d = 1 \/ d = -1 ->
  in_int4 t ->
  adjust (fun total => int4 (total + d)) k now [mk_user_stats_row 1 t ts] =
  if in_int4b (t + Z.of_nat k * d)
  then Ok [mk_user_stats_row 1 (t + Z.of_nat k * d)
             (match k with O => ts | S _ => Some now end)]
  else Raise numeric_value_out_of_range.
Proof.
  induction k as [|k IH]; intros t ts Hd Ht.
  - cbn [adjust]. replace (t + Z.of_nat 0 * d) with t by lia.
    apply in_int4b_true in Ht. now rewrite Ht.
  - cbn [adjust UPDATE_user_stats us_id total_users]. rewrite Z.eqb_refl.
    rewrite int4_in_int4b.
    destruct (in_int4b (t + d)) eqn:H1; cbn [bind].
    + rewrite IH by (auto; now apply in_int4b_true).
      replace (t + d + Z.of_nat k * d) with (t + Z.of_nat (S k) * d) by lia.
      destruct (in_int4b (t + Z.of_nat (S k) * d)); [|reflexivity].
      now destruct k.
    + assert (H2 : in_int4b (t + Z.of_nat (S k) * d) = false).
      { destruct (in_int4b (t + Z.of_nat (S k) * d)) eqn:H2; [|reflexivity].
        apply in_int4b_true in H2.
        assert (H3 : ~ in_int4 (t + d)).
        { intros H3. apply in_int4b_true in H3. congruence. }
        exfalso. apply H3. unfold in_int4, INT4_MIN, INT4_MAX in *.
        destruct Hd; subst d; lia. }
      now rewrite H2.
Qed.

Lemma run_mutation_single_counter (m : mutation) (now : timestamp) (db : database)
  (r : user_stats_row) (t' : list user_list_row) :
  user_stats db = [r] ->
  us_id r = 1 ->
  in_int4 (total_users r) ->
  ledger_statement m now (user_list db) = Ok t' ->
  run_mutation m now db =
  if in_int4b (total_users r + Z.of_nat (affected_rows m db) * delta m)
  then Ok (mk_database t'
             [mk_user_stats_row 1
                (total_users r + Z.of_nat (affected_rows m db) * delta m)
                (match affected_rows m db with
                 | O => last_updated r
                 | S _ => Some now
                 end)])
  else Raise numeric_value_out_of_range.
Proof.
  destruct db as [t s]. destruct r as [i n ts]. simpl.
  intros -> -> Hn Hl.
  destruct m as [vals|cond]; simpl in *.
  - bind_split Hl as stored Hst.
    rewrite INSERT_INTO_user_list_eq, Hst. cbn [bind]. rewrite Hl. cbn [bind].
    rewrite (adjust_counter 1) by auto.
    now destruct (in_int4b _).
  - rewrite DELETE_FROM_user_list_eq. injection Hl as <-.
    change (fun total => int4 (total - 1)) with (fun total => int4 (total + -1)).
    rewrite (adjust_counter (-1)) by auto.
    now destruct (in_int4b _).
Qed.

(** With one counter row in range, a statement that passes the ledger's own
    constraints (the lengths of [VARCHAR(255)] and the unique indexes)
    commits, with the adjusted count, when that count fits
    [INTEGER]; when it does not, the statement raises "integer out of range"
    and the transaction rolls back, ledger included. *)
Theorem mutation_outcome (m : mutation) (now : timestamp) (db : database)
  (r : user_stats_row) (t' : list user_list_row) :
  user_stats db = [r] ->
  us_id r = 1 ->
  in_int4 (total_users r) ->
  ledger_statement m now (user_list db) = Ok t' ->
  let n := total_users r + Z.of_nat (affected_rows m db) * delta m in
  (in_int4 n ->
   exists stamp,
     run_mutation m now db = Ok (mk_database t' [mk_user_stats_row 1 n stamp])) /\
  (~ in_int4 n ->
   run_mutation m now db = Raise numeric_value_out_of_range /\
   commit (run_mutation m now db) db = db).
Proof.
  intros Hs Hid Hn Hl n.
  rewrite (run_mutation_single_counter m now db r t' Hs Hid Hn Hl). fold n.
  destruct (in_int4b n) eqn:Hb.
  - split; [eauto|]. intros H. apply in_int4b_true in Hb. contradiction.
  - split; [|auto]. intros H. apply in_int4b_true in H. congruence.
Qed.

Lemma mutation_outcome_witness :
  (user_stats (mk_database [] [mk_user_stats_row 1 INT4_MAX None])
     = [mk_user_stats_row 1 INT4_MAX None] /\
   in_int4 INT4_MAX /\
   ledger_statement (Insert [alice]) 5 [] = Ok [new_row 5 alice] /\
   ~ in_int4 (INT4_MAX + 1)) /\
  run_mutation (Insert [alice]) 5 (mk_database [] [mk_user_stats_row 1 INT4_MAX None])
    = Raise numeric_value_out_of_range.
Proof.
  assert (Hin : in_int4 INT4_MAX) by (vm_compute; split; discriminate).
  assert (Hout : ~ in_int4 (INT4_MAX + 1)).
  { unfold in_int4, INT4_MAX. lia. }
  split; [repeat split; auto; apply Hin|].
  destruct (mutation_outcome (Insert [alice]) 5
              (mk_database [] [mk_user_stats_row 1 INT4_MAX None])
              (mk_user_stats_row 1 INT4_MAX None) [new_row 5 alice]
              eq_refl eq_refl Hin eq_refl) as [_ H].
  apply H. exact Hout.
Defined.

(** ** Drift *)

Lemma adjust_unchanged e k now s s' :
  WHERE_id_1 s = [] -> adjust e k now s = Ok s' -> s' = s.
Proof. intros H Ha. rewrite (adjust_absent e k now s H) in Ha. now inversion Ha. Qed.

Lemma run_mutation_adjust m now db db' :
  run_mutation m now db = Ok db' ->
  exists e, adjust e (affected_rows m db) now (user_stats db) = Ok (user_stats db').
Proof.
  destruct m as [vals|cond]; simpl; intros H.
  - apply INSERT_INTO_user_list_Ok in H. destruct H as (_ & _ & H & _). eauto.
  - apply DELETE_FROM_user_list_Ok in H. destruct H as (_ & H). eauto.
Qed.

(** The triggers keep the distance between the counter and the number of
    rows: a committed mutation neither creates nor repairs drift. *)
Theorem mutation_keeps_drift (m : mutation) (now : timestamp) (db db' : database) :
  run_mutation m now db = Ok db' -> drift db' = drift db.
Proof.
  intros Hrun. unfold drift, count.
  destruct (AggregateCounter db) as [r|] eqn:Hr.
  - destruct (run_mutation_Ok _ _ _ _ _ Hrun Hr) as (Hl & r' & Hr' & _ & Ht & _).
    rewrite Hr'. simpl. f_equal. unfold cardinality at 1.
    rewrite Hl, ledger_after_cardinality. lia.
  - assert (Habs : WHERE_id_1 (user_stats db) = []).
    { unfold AggregateCounter, SELECT_FROM_user_stats in Hr.
      destruct (WHERE_id_1 (user_stats db)); [reflexivity | discriminate]. }
    destruct (run_mutation_adjust _ _ _ _ Hrun) as (e & Ha).
    apply (adjust_unchanged _ _ _ _ _ Habs) in Ha.
    unfold AggregateCounter, SELECT_FROM_user_stats. rewrite Ha, Habs. reflexivity.
Qed.

Lemma mutation_keeps_drift_witness :
  run_mutation (Insert [bob]) 9 drifted =
    Ok (mk_database (user_list two_members ++ [new_row 9 bob])
          [mk_user_stats_row 1 41 (Some 9)]) /\
  drift (mk_database (user_list two_members ++ [new_row 9 bob])
           [mk_user_stats_row 1 41 (Some 9)]) = Some 38.
Proof.
  split; [reflexivity|].
  rewrite (mutation_keeps_drift (Insert [bob]) 9 drifted
             (mk_database (user_list two_members ++ [new_row 9 bob])
                [mk_user_stats_row 1 41 (Some 9)]) eq_refl).
  reflexivity.
Defined.

(** ** What the reconciliation leaves alone *)

Lemma overwrite_ids n now s : map us_id (overwrite n now s) = map us_id s.
Proof.
  unfold overwrite. rewrite map_map. apply map_ext. intros r.
  now destruct (us_id r =? 1).
Qed.

(** A successful reconciliation returns the number of rows, keeps the ledger
    and the identities of the [user_stats] rows, and, when no row has
    [id = 1], stores nothing: it never inserts the counter row. *)
Theorem recalculate_never_inserts (now : timestamp) (db db' : database) (n : Z) :
  recalculate_user_count now db = Ok (db', n) ->
  n = cardinality db /\
  user_list db' = user_list db /\
  map us_id (user_stats db') = map us_id (user_stats db) /\
  (SELECT_FROM_user_stats db = [] -> db' = db).
Proof.
  rewrite recalculate_user_count_eq. intros H.
  apply bind_Ok in H. destruct H as (k & Hk & H). inversion H; subst. simpl.
  apply int4_Ok in Hk. destruct Hk as [-> _].
  repeat split.
  - apply overwrite_ids.
  - unfold SELECT_FROM_user_stats. intros Habs.
    rewrite (overwrite_absent _ _ _ Habs). now destruct db.
Qed.

Lemma recalculate_never_inserts_witness :
  recalculate_user_count 20 two_members_no_counter = Ok (two_members_no_counter, 2) /\
  2 = cardinality two_members_no_counter /\
  user_list two_members_no_counter = user_list two_members_no_counter /\
  map us_id (user_stats two_members_no_counter)
    = map us_id (user_stats two_members_no_counter) /\
  (SELECT_FROM_user_stats two_members_no_counter = [] ->
   two_members_no_counter = two_members_no_counter).
Proof.
  split; [reflexivity|].
  apply (recalculate_never_inserts 20 two_members_no_counter two_members_no_counter 2).
  reflexivity.
Defined.

(** ** The schema script *)

Lemma existsb_id_1 s :
  existsb (fun x => us_id x =? us_id (mk_user_stats_row 1 0 None)) s =
  match WHERE_id_1 s with [] => false | _ :: _ => true end.
Proof.
  unfold WHERE_id_1. induction s as [|a s IH]; simpl; [reflexivity|].
  destruct (us_id a =? 1); simpl; [reflexivity | exact IH].
Qed.

Lemma schema_sql_eq now db :
  schema_sql now db =
  Ok (mk_database (user_list db)
        match WHERE_id_1 (user_stats db) with
        | [] => user_stats db ++ [mk_user_stats_row 1 0 (Some now)]
        | _ :: _ => user_stats db
        end).
Proof.
  unfold schema_sql, INSERT_INTO_user_stats_ON_CONFLICT_DO_NOTHING.
  cbn [us_id negb Z.eqb Pos.eqb]. 
  change (existsb (fun x => us_id x =? 1) (user_stats db))
    with (existsb (fun x => us_id x =? us_id (mk_user_stats_row 1 0 None)) (user_stats db)).
  rewrite existsb_id_1. now destruct (WHERE_id_1 (user_stats db)).
Qed.

Lemma WHERE_id_1_app s s' : WHERE_id_1 (s ++ s') = WHERE_id_1 s ++ WHERE_id_1 s'.
Proof. apply filter_app. Qed.

(** The schema script never fails on the data and never touches the ledger.
    It appends the row (1, 0, now) when no row has [id = 1] and otherwise
    leaves [user_stats] as it is, so a stored count is never reset; run a
    second time, it changes nothing. *)
Theorem schema_sql_idempotent (now1 now2 : timestamp) (db : database) :
  let db1 := commit (schema_sql now1 db) db in
  user_list db1 = user_list db /\
  user_stats db1 =
    match SELECT_FROM_user_stats db with
    | [] => user_stats db ++ [mk_user_stats_row 1 0 (Some now1)]
    | _ :: _ => user_stats db
    end /\
  schema_sql now2 db1 = Ok db1.
Proof.
  cbv zeta. unfold SELECT_FROM_user_stats. rewrite schema_sql_eq. cbn [commit].
  rewrite schema_sql_eq. cbn [user_list user_stats].
  split; [reflexivity|]. split; [reflexivity|].
  destruct (WHERE_id_1 (user_stats db)) as [|x l] eqn:Hw.
  - rewrite WHERE_id_1_app, Hw. reflexivity.
  - rewrite Hw. reflexivity.
Qed.

(** Run on a database that holds members and no counter row, the script
    stores a count of 0: the result is consistent only for an empty ledger. *)
Theorem schema_sql_counts_nothing (now : timestamp) (db : database) :
  SELECT_FROM_user_stats db = [] ->
  count (commit (schema_sql now db) db) = Some 0 /\
  (consistent (commit (schema_sql now db) db) <-> user_list db = []).
Proof.
  unfold SELECT_FROM_user_stats. intros Habs.
  assert (Hc : count (commit (schema_sql now db) db) = Some 0).
  { rewrite schema_sql_eq, Habs. cbn [commit].
    unfold count, AggregateCounter, SELECT_FROM_user_stats. cbn [user_stats].
    rewrite WHERE_id_1_app, Habs. reflexivity. }
  split; [exact Hc|].
  unfold consistent. rewrite Hc, schema_sql_eq. unfold cardinality. cbn [commit user_list].
  destruct (user_list db); simpl; split; intros H; try reflexivity; try discriminate.
Qed.

Lemma schema_sql_counts_nothing_witness :
  SELECT_FROM_user_stats two_members_no_counter = [] /\
  count (commit (schema_sql 30 two_members_no_counter) two_members_no_counter) = Some 0 /\
  (consistent (commit (schema_sql 30 two_members_no_counter) two_members_no_counter)
   <-> user_list two_members_no_counter = []).
Proof.
  split; [reflexivity|].
  apply (schema_sql_counts_nothing 30 two_members_no_counter). reflexivity.
Defined.

(** ** Insert, then delete *)

Lemma id_among_old vals t :
  Forall (fun v => ~ In (v_id v) (map ul_id t)) vals ->
  forall x, In x t -> id_among vals x = false.
Proof.
  intros Hfresh x Hx. unfold id_among.
  destruct (existsb _ vals) eqn:He; [|reflexivity].
  apply existsb_exists in He. destruct He as (v & Hv & Heq).
  apply Z.eqb_eq in Heq. rewrite Forall_forall in Hfresh.
  exfalso. apply (Hfresh v Hv). rewrite <- Heq. now apply in_map.
Qed.

Lemma id_among_new vals now :
  forall x, In x (map (new_row now) (map stored_as vals)) -> id_among vals x = true.
Proof.
  intros x Hx. rewrite map_map in Hx. apply in_map_iff in Hx.
  destruct Hx as (v & <- & Hv).
  unfold id_among. apply existsb_exists. exists v. split; [exact Hv|].
  apply Z.eqb_refl.
Qed.

Lemma filter_none {A : Type} (f : A -> bool) (l : list A) :
  (forall x, In x l -> f x = false) -> filter f l = [].
Proof.
  induction l as [|a l IH]; simpl; intros H; [reflexivity|].
  rewrite (H a) by now left. apply IH. intros x Hx. apply H. now right.
Qed.

Lemma filter_all {A : Type} (f : A -> bool) (l : list A) :
  (forall x, In x l -> f x = true) -> filter f l = l.
Proof. intros H. now apply forallb_filter_id, forallb_forall. Qed.

Lemma filter_id_among vals now t :
  Forall (fun v => ~ In (v_id v) (map ul_id t)) vals ->
  filter (id_among vals) (t ++ map (new_row now) (map stored_as vals))
    = map (new_row now) (map stored_as vals) /\
  filter (fun r => negb (id_among vals r))
    (t ++ map (new_row now) (map stored_as vals)) = t.
Proof.
  intros Hfresh. rewrite !filter_app. split.
  - rewrite (filter_none _ t) by (apply id_among_old; assumption).
    simpl. apply filter_all. apply id_among_new.
  - rewrite (filter_all _ t), (filter_none _ (map _ (map _ vals))).
    + apply app_nil_r.
    + intros x Hx. now rewrite (id_among_new vals now x Hx).
    + intros x Hx. now rewrite (id_among_old vals t Hfresh x Hx).
Qed.

(** Deleting the rows an insert has just added, by their ids, gives back the
    ledger and the count from before the insert. *)
Theorem insert_then_delete (vals : list VALUES) (now1 now2 : timestamp)
  (db db1 : database) :
  counter_tracks_ledger db ->
  in_int4 (cardinality db) ->
  Forall (fun v => ~ In (v_id v) (map ul_id (user_list db))) vals ->
  INSERT_INTO_user_list vals now1 db = Ok db1 ->
  exists db2,
    DELETE_FROM_user_list (id_among vals) now2 db1 = Ok db2 /\
    user_list db2 = user_list db /\
    count db2 = count db.
Proof.
  intros (r & Hs & Hid & Ht) Hrange Hfresh Hins. rewrite <- Ht in Hrange.
  pose proof (INSERT_INTO_user_list_Ok _ _ _ _ Hins) as (Hl & Hrows & _ & Hassign).
  assert (Hstmt : ledger_statement (Insert vals) now1 (user_list db) = Ok (user_list db1)).
  { cbn [ledger_statement]. rewrite Hassign. exact Hrows. }
  pose proof (run_mutation_single_counter (Insert vals) now1 db r (user_list db1)
                Hs Hid Hrange Hstmt) as Hout.
  cbn [run_mutation affected_rows delta] in Hout. rewrite Hins in Hout.
  destruct (in_int4b (total_users r + Z.of_nat (List.length vals) * 1)) eqn:Hb;
    [|discriminate].
  injection Hout as Hdb1. apply in_int4b_true in Hb.
  destruct (filter_id_among vals now1 (user_list db) Hfresh) as [Hdel Hkeep].
  pose proof (run_mutation_single_counter (Delete (id_among vals)) now2 db1
                (mk_user_stats_row 1 (total_users r + Z.of_nat (List.length vals) * 1)
                   (match List.length vals with O => last_updated r | S _ => Some now1 end))
                (user_list db)) as Hout.
  cbn [run_mutation affected_rows delta ledger_statement us_id total_users] in Hout.
  rewrite Hl, Hdel, Hkeep, !length_map in Hout.
  rewrite Hout; [|now rewrite Hdb1|reflexivity|exact Hb|reflexivity].
  replace (total_users r + Z.of_nat (List.length vals) * 1
           + Z.of_nat (List.length vals) * -1) with (total_users r) by lia.
  apply in_int4b_true in Hrange. rewrite Hrange.
  eexists. split; [reflexivity|]. split; [reflexivity|].
  unfold count, AggregateCounter, SELECT_FROM_user_stats. rewrite Hs.
  unfold WHERE_id_1. simpl. now rewrite Hid.
Qed.

Lemma insert_then_delete_witness :
  (counter_tracks_ledger two_members /\
   in_int4 (cardinality two_members) /\
   Forall (fun v => ~ In (v_id v) (map ul_id (user_list two_members))) [bob] /\
   INSERT_INTO_user_list [bob] 8 two_members =
     Ok (mk_database (user_list two_members ++ [new_row 8 bob])
           [mk_user_stats_row 1 3 (Some 8)])) /\
  exists db2,
    DELETE_FROM_user_list (id_among [bob]) 9
      (mk_database (user_list two_members ++ [new_row 8 bob])
         [mk_user_stats_row 1 3 (Some 8)]) = Ok db2 /\
    user_list db2 = user_list two_members /\
    count db2 = count two_members.
Proof.
  assert (H1 : counter_tracks_ledger two_members).
  { eexists. split; [reflexivity|]. split; reflexivity. }
  assert (H2 : in_int4 (cardinality two_members)).
  { vm_compute. split; discriminate. }
  assert (H3 : Forall (fun v => ~ In (v_id v) (map ul_id (user_list two_members))) [bob]).
  { repeat constructor. simpl. intuition discriminate. }
  split; [repeat split; auto; apply H2|].
  apply (insert_then_delete [bob] 8 9 two_members
           (mk_database (user_list two_members ++ [new_row 8 bob])
              [mk_user_stats_row 1 3 (Some 8)]) H1 H2 H3).
  reflexivity.
Defined.

(** ** The declared constraints are kept *)

Lemma insert_rows_keys_unique rows : forall t t',
  keys_unique t -> insert_rows rows t = Ok t' -> keys_unique t'.
Proof.
  induction rows as [|r rows IH]; simpl; intros t t' Ht H.
  - now inversion H; subst.
  - bind_inv H. unfold insert_row in E.
    destruct (existsb (conflicts r) t) eqn:Hc; [discriminate|]. inversion E; subst.
    apply (IH (t ++ [r])); [|exact H]. apply keys_unique_snoc. auto.
Qed.

(** Deleting rows keeps a column free of duplicates. *)
Lemma NoDup_map_filter (A B : Type) (keep : A -> bool) (key : A -> B) :
  forall rows : list A,
    NoDup (map key rows) -> NoDup (map key (filter keep rows)).
Proof.
  intros rows Hnd. induction rows as [|a rows IH]; simpl in *; [constructor|].
  inversion Hnd as [|? ? Hnotin Hnd']; subst.
  destruct (keep a); simpl; [|now apply IH].
  constructor; [|now apply IH].
  intros Hin. apply Hnotin. apply in_map_iff in Hin. destruct Hin as (y & Hy & Hin).
  apply filter_In in Hin. rewrite <- Hy. apply in_map. tauto.
Qed.

Lemma keys_unique_filter p t : keys_unique t -> keys_unique (filter p t).
Proof.
  intros (H1 & H2 & H3). repeat split; now apply NoDup_map_filter.
Qed.

Lemma UPDATE_user_stats_range e now s s' :
  (forall n m, e n = Ok m -> in_int4 m) ->
  Forall (fun r => us_id r = 1 /\ in_int4 (total_users r)) s ->
  UPDATE_user_stats e now s = Ok s' ->
  Forall (fun r => us_id r = 1 /\ in_int4 (total_users r)) s'.
Proof.
  intros He. revert s'. induction s as [|r s IH]; simpl; intros s' Hs H.
  - inversion H. constructor.
  - inversion Hs as [|? ? Hr Hs']; subst.
    destruct (us_id r =? 1) eqn:Hid.
    + bind_inv H. bind_inv H. inversion H; subst. constructor; [|now apply IH].
      simpl. split; [tauto | eapply He; eauto].
    + bind_inv H. inversion H; subst. constructor; [exact Hr | now apply IH].
Qed.

Lemma adjust_range e k now : forall s s',
  (forall n m, e n = Ok m -> in_int4 m) ->
  Forall (fun r => us_id r = 1 /\ in_int4 (total_users r)) s ->
  adjust e k now s = Ok s' ->
  Forall (fun r => us_id r = 1 /\ in_int4 (total_users r)) s'.
Proof.
  induction k as [|k IH]; simpl; intros s s' He Hs H.
  - now inversion H; subst.
  - bind_inv H. apply (IH x); auto. eapply UPDATE_user_stats_range; eauto.
Qed.

Lemma int4_result_in_range (f : Z -> Z) n m : int4 (f n) = Ok m -> in_int4 m.
Proof. intros H. apply int4_Ok in H. destruct H as [-> H]. exact H. Qed.

Lemma constraints_ok_mutation m now db :
  constraints_ok db -> constraints_ok (commit (run_mutation m now db) db).
Proof.
  intros H. destruct (run_mutation m now db) as [db'|e] eqn:Hrun; [|exact H].
  destruct H as (Hk & Hn & Hf). cbn [commit].
  pose proof (run_mutation_ids _ _ _ _ Hrun) as Hids.
  split; [|split].
  - destruct m as [vals|cond]; simpl in Hrun.
    + apply INSERT_INTO_user_list_Ok in Hrun. destruct Hrun as (_ & Hrows & _ & _).
      eapply insert_rows_keys_unique; eauto.
    + apply DELETE_FROM_user_list_Ok in Hrun. destruct Hrun as (-> & _).
      now apply keys_unique_filter.
  - now rewrite Hids.
  - destruct m as [vals|cond]; simpl in Hrun.
    + apply INSERT_INTO_user_list_Ok in Hrun. destruct Hrun as (_ & _ & Ha & _).
      eapply adjust_range; [|exact Hf|exact Ha].
      intros n k. apply (int4_result_in_range (fun x => x + 1)).
    + apply DELETE_FROM_user_list_Ok in Hrun. destruct Hrun as (_ & Ha).
      eapply adjust_range; [|exact Hf|exact Ha].
      intros n k. apply (int4_result_in_range (fun x => x - 1)).
Qed.

Lemma constraints_ok_recalculate now db :
  constraints_ok db -> constraints_ok (commit (SELECT_recalculate now db) db).
Proof.
  intros H. unfold SELECT_recalculate.
  destruct (int4 (cardinality db)) as [n|e] eqn:Hn.
  - rewrite (recalculate_user_count_Ok now db n Hn). cbn [bind commit fst].
    destruct H as (Hk & Hnd & Hf). split; [exact Hk|]. cbn [user_stats]. split.
    + now rewrite overwrite_ids.
    + apply int4_Ok in Hn. destruct Hn as [Heq Hn2]. rewrite <- Heq in Hn2.
      clear - Hf Hn2. unfold overwrite.
      induction Hf as [|r s Hr Hs IH]; simpl; constructor; auto.
      destruct (us_id r =? 1); simpl; tauto.
  - rewrite (recalculate_user_count_Raise now db e Hn). exact H.
Qed.

Lemma constraints_ok_schema now db :
  constraints_ok db -> constraints_ok (commit (schema_sql now db) db).
Proof.
  intros (Hk & Hnd & Hf). rewrite schema_sql_eq. cbn [commit].
  split; [exact Hk|]. cbn [user_stats].
  destruct (WHERE_id_1 (user_stats db)) as [|x l] eqn:Hw; [|auto].
  assert (Hs : user_stats db = []).
  { destruct (user_stats db) as [|r s]; [reflexivity|].
    inversion Hf as [|? ? [Hid _] _]; subst.
    unfold WHERE_id_1 in Hw. simpl in Hw. rewrite Hid in Hw. discriminate. }
  rewrite Hs. simpl. split.
  - repeat constructor. intros [].
  - repeat constructor; unfold INT4_MIN, INT4_MAX; simpl; lia.
Qed.

(** A property of the database that mutations, reconciliation and the
    schema script keep is kept by every operation of the system. *)
Section Invariant.

Variable P : database -> Prop.
Hypothesis P_mutation :
  forall m now db, P db -> P (commit (run_mutation m now db) db).
Hypothesis P_recalculate :
  forall now db, P db -> P (commit (SELECT_recalculate now db) db).
Hypothesis P_schema :
  forall now db, P db -> P (commit (schema_sql now db) db).

Lemma query_keeps {A : Type} (text : sql A) : keeps P (query text).
Proof.
  intros w H. unfold query.
  destruct (negb (pool (dbConnection w)) || negb (isConnected (dbConnection w)));
    [exact H|].
  unfold pool_query. destruct (unreachable w); [exact H|].
  destruct text; try exact H.
  - pose proof (P_recalculate (clock w) _ H) as H'.
    unfold SELECT_recalculate in H'.
    destruct (recalculate_user_count (clock w) (storage w)) as [[db n]|e]; exact H'.
  - pose proof (P_mutation (Insert [v]) (clock w) _ H) as H'.
    simpl in H'.
    destruct (INSERT_INTO_user_list [v] (clock w) (storage w)); exact H'.
Qed.

Lemma js_return_keeps {A : Type} (a : A) : keeps P (js_return a).
Proof. intros w H. exact H. Qed.

Lemma js_bind_keeps {A B : Type} (m : js A) (k : A -> js B) :
  keeps P m -> (forall a, keeps P (k a)) -> keeps P (js_bind m k).
Proof.
  intros Hm Hk w H. unfold js_bind. specialize (Hm w H).
  destruct (m w) as [w' [a|error]]; simpl in *; [now apply Hk | exact Hm].
Qed.

Lemma getUserCount_keeps : keeps P getUserCount.
Proof.
  unfold getUserCount. apply js_bind_keeps; [apply query_keeps|].
  intros rows. destruct (List.length rows =? 0)%nat.
  - apply js_bind_keeps; [apply query_keeps|]. intros _.
    apply js_bind_keeps; [apply query_keeps|]. intros recalcRows.
    apply js_return_keeps.
  - apply js_return_keeps.
Qed.

Lemma for_of_users_keeps users : keeps P (for_of_users users).
Proof.
  induction users as [|user users IH]; intros w H; simpl.
  - exact H.
  - pose proof (query_keeps (INSERT_username_email user) w H) as H'.
    destruct (query (INSERT_username_email user) w) as [w' [a|error]]; simpl in H'.
    + now apply IH.
    + destruct (code_is error "23505"); [now apply IH | exact H'].
Qed.

Lemma step_keeps db db' : step db db' -> P db -> P db'.
Proof.
  intros Hstep H. destruct Hstep.
  - now apply P_mutation.
  - now apply P_recalculate.
  - now apply P_schema.
  - now apply query_keeps.
  - now apply getUserCount_keeps.
  - rewrite api_usercount_storage. now apply getUserCount_keeps.
Qed.

End Invariant.

(** Every operation of the system keeps the constraints the schema declares:
    unique ids, usernames and emails in [user_list]; in [user_stats], unique
    ids, [id = 1] and a [total_users] within [INTEGER]. *)
Theorem constraints_ok_step (db db' : database) :
  step db db' -> constraints_ok db -> constraints_ok db'.
Proof.
  apply step_keeps.
  - apply constraints_ok_mutation.
  - apply constraints_ok_recalculate.
  - apply constraints_ok_schema.
Qed.

Lemma constraints_ok_three_members : constraints_ok three_members.
Proof.
  unfold constraints_ok, keys_unique. simpl.
  repeat split; repeat constructor; simpl; try intuition discriminate;
    unfold INT4_MIN, INT4_MAX; lia.
Qed.

Lemma constraints_ok_step_witness :
  (step three_members two_members /\ constraints_ok three_members) /\
  constraints_ok two_members.
Proof.
  assert (H : step three_members two_members).
  { exact (step_mutation (Delete is_bob) 6 three_members). }
  split; [split; [exact H | apply constraints_ok_three_members]|].
  apply (constraints_ok_step three_members two_members H).
  apply constraints_ok_three_members.
Defined.

(** * Further properties of the read path *)

Lemma set_storage_same w : set_storage w (storage w) = w.
Proof. now destruct w. Qed.

Lemma query_SELECT_world w :
  fst (query SELECT_total_users_last_updated w) = w.
Proof.
  unfold query, pool_query.
  destruct (negb (pool (dbConnection w)) || negb (isConnected (dbConnection w)));
    [reflexivity|].
  now destruct (unreachable w).
Qed.

(** The reconciliation query writes only when a row with [id = 1] exists. *)
Lemma query_recalculate_absent w :
  SELECT_FROM_user_stats (storage w) = [] ->
  fst (query SELECT_recalculate_user_count w) = w.
Proof.
  intros Habs. unfold query, pool_query.
  destruct (negb (pool (dbConnection w)) || negb (isConnected (dbConnection w)));
    [reflexivity|].
  destruct (unreachable w); [reflexivity|].
  destruct (recalculate_user_count (clock w) (storage w)) as [[db n]|e] eqn:Hr;
    [|reflexivity].
  rewrite recalculate_user_count_eq in Hr.
  apply bind_Ok in Hr. destruct Hr as (k & _ & Hr). inversion Hr; subst.
  unfold SELECT_FROM_user_stats in Habs. rewrite (overwrite_absent _ _ _ Habs).
  simpl. destruct w as [c u [t s] now]. reflexivity.
Qed.

Lemma query_SELECT_rows w rows :
  query SELECT_total_users_last_updated w = (w, Return rows) ->
  rows = map columns (SELECT_FROM_user_stats (storage w)).
Proof.
  unfold query, pool_query.
  destruct (negb (pool (dbConnection w)) || negb (isConnected (dbConnection w)));
    [discriminate|].
  destruct (unreachable w); [discriminate|]. now inversion 1.
Qed.

Lemma getUserCount_world (w : world) : fst (getUserCount w) = w.
Proof.
  unfold getUserCount, js_bind.
  pose proof (query_SELECT_world w) as H1.
  destruct (query SELECT_total_users_last_updated w) as [w1 [rows|error]] eqn:Hq;
    simpl in H1; subst w1; [|reflexivity].
  destruct (List.length rows =? 0)%nat eqn:Hlen; [|reflexivity].
  apply query_SELECT_rows in Hq. apply Nat.eqb_eq in Hlen.
  assert (Habs : SELECT_FROM_user_stats (storage w) = []).
  { destruct (SELECT_FROM_user_stats (storage w)); [reflexivity|].
    subst rows. discriminate. }
  pose proof (query_recalculate_absent w Habs) as H2.
  destruct (query SELECT_recalculate_user_count w) as [w2 [x|error]];
    simpl in H2; subst w2; [|reflexivity].
  pose proof (query_SELECT_world w) as H3.
  destruct (query SELECT_total_users_last_updated w) as [w3 [rows'|error]];
    simpl in H3; subst w3; reflexivity.
Qed.

(** [getUserCount] writes nothing, in any state of the connection, the
    server and the database: the fallback runs only when no row has
    [id = 1], and then the reconciliation has no row to update. *)
Theorem getUserCount_never_writes (w : world) : fst (getUserCount w) = w.
Proof. exact (getUserCount_world w). Qed.

Lemma getUserCount_result (db : database) (now : timestamp) :
  getUserCount (online db now) =
  (online db now,
   match AggregateCounter db with
   | Some r => Return (Some (columns r))
   | None =>
       match int4 (cardinality db) with
       | Ok _ => Return None
       | Raise e => Throw (DatabaseError e)
       end
   end).
Proof.
  pose proof (getUserCount_world (online db now)) as Hw.
  destruct (getUserCount (online db now)) as [w' c] eqn:Hg. simpl in Hw. subst w'.
  f_equal. revert Hg.
  unfold getUserCount, js_bind, query, pool_query, online, AggregateCounter. simpl.
  destruct (SELECT_FROM_user_stats db) as [|x l] eqn:Hs; simpl.
  - rewrite recalculate_user_count_eq.
    destruct (int4 (cardinality db)) as [n|e]; simpl.
    + unfold SELECT_FROM_user_stats in *. simpl.
      rewrite (overwrite_absent _ _ _ Hs), Hs. simpl. now inversion 1.
    + now inversion 1.
  - now inversion 1.
Qed.

(** What a read returns when the pool is connected and the server answers:
    the stored counter row when there is one, whatever the ledger holds;
    with no counter row, [undefined], or the "integer out of range" of the
    reconciliation when the ledger has more rows than [INTEGER] can count. *)
Theorem getUserCount_online (db : database) (now : timestamp) :
  getUserCount (online db now) =
  (online db now,
   match AggregateCounter db with
   | Some r => Return (Some (columns r))
   | None =>
       match int4 (cardinality db) with
       | Ok _ => Return None
       | Raise e => Throw (DatabaseError e)
       end
   end).
Proof. exact (getUserCount_result db now). Qed.

Example getUserCount_drifted :
  getUserCount (online drifted 20) =
  (online drifted 20, Return (Some (mk_userStats 40 (Some 3)))).
Proof. reflexivity. Qed.

(** For every database the system can reach, a request to the route on a
    connected pool with the server up is answered 200 with the number of
    ledger rows, and nothing is written. *)
Theorem api_usercount_reports_cardinality (db : database) (now : timestamp) :
  reachable db ->
  exists stamp,
    handle api_usercount (online db now) =
    (online db now, mk_reply 200 (usercount_body (cardinality db) stamp)).
Proof.
  intros H. destruct (reachable_counter_tracks_ledger db H) as (r & Hs & Hid & Ht).
  exists (last_updated r). unfold handle, api_usercount.
  rewrite getUserCount_result, (AggregateCounter_single db r Hs Hid).
  unfold columns, parseInt. simpl. now rewrite Ht.
Qed.

Lemma api_usercount_reports_cardinality_witness :
  reachable two_members /\
  exists stamp,
    handle api_usercount (online two_members 20) =
    (online two_members 20, mk_reply 200 (usercount_body (cardinality two_members) stamp)).
Proof.
  assert (H : reachable two_members).
  { apply (reachable_step three_members).
    - apply (reachable_step (provisioned 0)).
      + apply reachable_provisioned.
      + exact (step_mutation (Insert [alice; bob; carol]) 5 (provisioned 0)).
    - exact (step_mutation (Delete is_bob) 6 three_members). }
  split; [exact H|].
  apply (api_usercount_reports_cardinality two_members 20 H).
Defined.

(** ** The connection *)

(** While the pool is unset or [isConnected] is false, no statement reaches
    the server: [query] throws the fixed error and nothing changes; the
    count route answers 500 and the health route 503. *)
Theorem query_not_connected (w : world) :
  pool (dbConnection w) && isConnected (dbConnection w) = false ->
  (forall (A : Type) (text : sql A), query text w = (w, Throw not_connected)) /\
  handle api_usercount w =
    (w, mk_reply 500
          (error_body "Internal Server Error" "Failed to retrieve user count" (clock w))) /\
  handle health_route w =
    (w, mk_reply 503 (health_body (unhealthy (message not_connected)) (clock w))).
Proof.
  intros Hc.
  assert (Hq : forall (A : Type) (text : sql A), query text w = (w, Throw not_connected)).
  { intros A text. unfold query.
    destruct (pool (dbConnection w)), (isConnected (dbConnection w));
      try discriminate; reflexivity. }
  split; [exact Hq|]. split.
  - unfold handle, api_usercount, getUserCount, js_bind. now rewrite Hq.
  - unfold handle, health_route, healthCheck, js_bind. now rewrite Hq.
Qed.

Lemma query_not_connected_witness :
  pool (dbConnection (mk_world (mk_DatabaseConnection true false) None two_members 20))
  && isConnected (dbConnection (mk_world (mk_DatabaseConnection true false) None two_members 20))
  = false /\
  query (INSERT_username_email bob)
    (mk_world (mk_DatabaseConnection true false) None two_members 20) =
  (mk_world (mk_DatabaseConnection true false) None two_members 20, Throw not_connected).
Proof.
  split; [reflexivity|].
  apply (query_not_connected
           (mk_world (mk_DatabaseConnection true false) None two_members 20)).
  reflexivity.
Defined.

(** [connect] with the server up: the pool is set and connected, the
    database untouched, and from then on every query is the pool's. *)
Theorem connect_success (w : world) :
  unreachable w = None ->
  connect w = (set_dbConnection w connected, Return tt) /\
  forall (A : Type) (text : sql A),
    (_ <~ connect ;; query text) w = pool_query text (set_dbConnection w connected).
Proof.
  intros Hu. unfold connect, js_bind. rewrite Hu. split; reflexivity.
Qed.

Lemma connect_success_witness :
  unreachable (mk_world (mk_DatabaseConnection false false) None two_members 20) = None /\
  (_ <~ connect ;; getUserCount)
    (mk_world (mk_DatabaseConnection false false) None two_members 20) =
  (online two_members 20, Return (Some (mk_userStats 2 (Some 6)))).
Proof.
  split; [reflexivity|].
  unfold js_bind.
  rewrite (proj1 (connect_success
                    (mk_world (mk_DatabaseConnection false false) None two_members 20)
                    eq_refl)).
  reflexivity.
Defined.

(** [connect] with the server down: the error thrown carries the message of
    the cause behind a fixed prefix and no code; the pool stays set and
    [isConnected] stays false, so every later query throws "not connected",
    even once the server answers again, until [connect] is called anew. *)
Theorem connect_failure (w : world) (error : Error) :
  unreachable w = Some error ->
  connect w =
    (set_dbConnection w (mk_DatabaseConnection true false),
     Throw (mk_Error None
              (String.append "Database connection failed: " (message error)))) /\
  forall (w' : world) (A : Type) (text : sql A),
    dbConnection w' = dbConnection (fst (connect w)) ->
    query text w' = (w', Throw not_connected).
Proof.
  intros Hu. unfold connect. rewrite Hu. split; [reflexivity|].
  intros w' A text Hc. unfold query. rewrite Hc. reflexivity.
Qed.

Lemma connect_failure_witness :
  unreachable (mk_world (mk_DatabaseConnection false false) (Some ECONNREFUSED)
                 two_members 20) = Some ECONNREFUSED /\
  connect (mk_world (mk_DatabaseConnection false false) (Some ECONNREFUSED) two_members 20) =
    (mk_world (mk_DatabaseConnection true false) (Some ECONNREFUSED) two_members 20,
     Throw (mk_Error None
              "Database connection failed: connect ECONNREFUSED 127.0.0.1:5432")) /\
  query SELECT_1 (mk_world (mk_DatabaseConnection true false) None two_members 21) =
    (mk_world (mk_DatabaseConnection true false) None two_members 21, Throw not_connected).
Proof.
  split; [reflexivity|].
  destruct (connect_failure
              (mk_world (mk_DatabaseConnection false false) (Some ECONNREFUSED)
                 two_members 20) ECONNREFUSED eq_refl) as [H1 H2].
  split; [exact H1|]. apply H2. reflexivity.
Defined.

(** After [close] has returned, every query throws "not connected" and the
    database is the one from before, whether or not a pool had been set. *)
Theorem query_after_close (w : world) (A : Type) (text : sql A) :
  (_ <~ close (Return tt) ;; query text) w =
    (fst (close (Return tt) w), Throw not_connected) /\
  storage (fst (close (Return tt) w)) = storage w.
Proof.
  unfold js_bind, close, query.
  destruct (pool (dbConnection w)) eqn:Hp; simpl.
  - split; reflexivity.
  - rewrite Hp. split; reflexivity.
Qed.

(** ** The routes *)

(** [GET /health] answers 200 exactly when the pool is set and connected and
    the server answers; otherwise 503, with the message of the error in the
    body.  It never changes the world. *)
Theorem health_route_status (w : world) :
  handle health_route w =
  (w,
   if pool (dbConnection w) && isConnected (dbConnection w) then
     match unreachable w with
     | None => mk_reply 200 (health_body (healthy true) (clock w))
     | Some error => mk_reply 503 (health_body (unhealthy (message error)) (clock w))
     end
   else mk_reply 503 (health_body (unhealthy (message not_connected)) (clock w))).
Proof.
  unfold handle, health_route, healthCheck, js_bind, query, pool_query.
  destruct (pool (dbConnection w)) eqn:Hp, (isConnected (dbConnection w)) eqn:Hi;
    simpl; try reflexivity.
  destruct (unreachable w); simpl; try reflexivity. now rewrite Hi.
Qed.

(** Both routes answer themselves in every state, and leave the world as it
    was: nothing they run reaches the error handler. *)
Theorem routes_never_throw (w : world) :
  (exists r, api_usercount w = (w, Return r)) /\
  (exists r, health_route w = (w, Return r)).
Proof.
  split.
  - unfold api_usercount. pose proof (getUserCount_world w) as Hw.
    destruct (getUserCount w) as [w' [[stats|]|error]]; simpl in Hw; subst w'; eauto.
  - unfold health_route, healthCheck, js_bind, query, pool_query.
    destruct (negb (pool (dbConnection w)) || negb (isConnected (dbConnection w)));
      simpl; [eauto|].
    destruct (unreachable w); simpl; eauto.
Qed.

(** * Properties of [addSampleData] *)

Lemma query_INSERT_online v db now :
  query (INSERT_username_email v) (online db now) =
  match INSERT_INTO_user_list [v] now db with
  | Ok db' => (online db' now, Return [])
  | Raise e => (online db now, Throw (DatabaseError e))
  end.
Proof.
  unfold query, pool_query, online. simpl.
  now destruct (INSERT_INTO_user_list [v] now db).
Qed.

(** The loop skips a user whose values fit the columns and whose username
    or email is stored. *)
Lemma for_of_users_skip u users db now :
  fits u ->
  natural_key_stored (user_list db) u ->
  for_of_users (u :: users) (online db now) = for_of_users users (online db now).
Proof.
  intros Hfit (x & Hx & Hkey). cbn [for_of_users]. rewrite query_INSERT_online.
  rewrite (INSERT_INTO_user_list_duplicate [u] u x now db); auto.
  now left.
Qed.

Lemma for_of_users_skip_all (users : list VALUES) (db : database) (now : timestamp) :
  Forall fits users ->
  Forall (natural_key_stored (user_list db)) users ->
  for_of_users users (online db now) = (online db now, Return tt).
Proof.
  intros Hfit Hall. induction Hall as [|u users Hu _ IH]; [reflexivity|].
  inversion Hfit; subst. rewrite for_of_users_skip; auto.
Qed.

(** When every user of the list fits the columns and already has its
    username or email in the ledger, the loop returns without an error and
    changes nothing. *)
Theorem for_of_users_all_stored (users : list VALUES) (db : database) (now : timestamp) :
  Forall fits users ->
  Forall (natural_key_stored (user_list db)) users ->
  for_of_users users (online db now) = (online db now, Return tt).
Proof. exact (for_of_users_skip_all users db now). Qed.

Lemma natural_key_stored_alice :
  natural_key_stored (user_list two_members) alice_again.
Proof. exists (new_row 5 alice). split; [left; reflexivity | left; reflexivity]. Qed.

Lemma for_of_users_all_stored_witness :
  (Forall fits [alice_again] /\
   Forall (natural_key_stored (user_list two_members)) [alice_again]) /\
  for_of_users [alice_again] (online two_members 9) = (online two_members 9, Return tt).
Proof.
  assert (H0 : Forall fits [alice_again]).
  { constructor; [apply fits_alice_again | constructor]. }
  assert (H : Forall (natural_key_stored (user_list two_members)) [alice_again]).
  { constructor; [apply natural_key_stored_alice | constructor]. }
  split; [split; [exact H0 | exact H]|].
  apply (for_of_users_all_stored [alice_again] two_members 9 H0 H).
Defined.

(** A value that is too long is not skipped: the error is not the unique
    violation, and it leaves the loop. *)
Example for_of_users_too_long :
  natural_key_stored (user_list two_members) alice_long_email /\
  for_of_users [alice_long_email; dave] (online two_members 9) =
  (online two_members 9, Throw (DatabaseError string_data_right_truncation)).
Proof.
  split.
  - exists (new_row 5 alice). split; [left; reflexivity | left; reflexivity].
  - vm_compute. reflexivity.
Qed.

Lemma natural_key_stored_incl t t' u :
  incl t t' -> natural_key_stored t u -> natural_key_stored t' u.
Proof. intros Hi (x & Hx & Hk). exists x. split; [now apply Hi | exact Hk]. Qed.

Lemma fresh_ids_tail u users t :
  fresh_ids (u :: users) t -> fresh_ids users t.
Proof.
  intros [Hnd Hf]. inversion Hnd; subst. inversion Hf; subst. split; assumption.
Qed.

Lemma fresh_ids_snoc u users t now :
  fresh_ids (u :: users) t -> fresh_ids users (t ++ [new_row now u]).
Proof.
  intros [Hnd Hf]. inversion Hnd as [|? ? Hnotin Hnd']; subst.
  inversion Hf as [|? ? Hu Hf']; subst. split; [exact Hnd'|].
  rewrite Forall_forall in *. intros v Hv. rewrite map_app, in_app_iff. simpl.
  intros [Hin|[Heq|[]]].
  - now apply (Hf' v Hv).
  - apply Hnotin. rewrite Heq. now apply in_map.
Qed.

(** One pass of the loop over users with fresh ids, from a database whose
    counter tracks the ledger and with room in [INTEGER]. *)
Lemma for_of_users_run users now : forall db,
  Forall fits users ->
  counter_tracks_ledger db ->
  cardinality db + Z.of_nat (List.length users) <= INT4_MAX ->
  fresh_ids users (user_list db) ->
  exists db',
    for_of_users users (online db now) = (online db' now, Return tt) /\
    counter_tracks_ledger db' /\
    incl (user_list db) (user_list db') /\
    Forall (natural_key_stored (user_list db')) users.
Proof.
  induction users as [|u users IH]; intros db Hfits Hinv Hroom Hfresh.
  - exists db. repeat split; auto using incl_refl.
  - inversion Hfits as [|? ? Hfit Hfits']; subst.
    assert (Hroom' : cardinality db + Z.of_nat (List.length users) <= INT4_MAX).
    { cbn [List.length] in Hroom. lia. }
    destruct (existsb (conflicts (new_row now u)) (user_list db)) eqn:Hc.
    + assert (Hkey : natural_key_stored (user_list db) u).
      { apply existsb_exists in Hc. destruct Hc as (x & Hx & Hcx).
        exists x. split; [exact Hx|]. unfold conflicts in Hcx.
        apply orb_true_iff in Hcx. destruct Hcx as [Hcx|Hcx];
          [apply orb_true_iff in Hcx; destruct Hcx as [Hcx|Hcx]|].
        * apply Z.eqb_eq in Hcx. exfalso. destruct Hfresh as [_ Hf].
          inversion Hf as [|? ? Hu _]; subst. apply Hu.
          simpl in Hcx. rewrite <- Hcx. now apply in_map.
        * left. now apply String.eqb_eq in Hcx.
        * right. now apply String.eqb_eq in Hcx. }
      destruct (IH db Hfits' Hinv Hroom' (fresh_ids_tail _ _ _ Hfresh))
        as (db' & Hrun & Hinv' & Hincl & Hall).
      exists db'. rewrite (for_of_users_skip u users db now Hfit Hkey).
      repeat split; auto. constructor; [|exact Hall].
      eapply natural_key_stored_incl; eauto.
    + destruct Hinv as (r & Hs & Hid & Ht).
      assert (Hr : in_int4 (total_users r)).
      { rewrite Ht. unfold in_int4, INT4_MIN, cardinality in *. lia. }
      assert (Hstmt : ledger_statement (Insert [u]) now (user_list db)
                      = Ok (user_list db ++ [new_row now u])).
      { cbn [ledger_statement].
        rewrite (assign_all_fits [u] (Forall_cons u Hfit (Forall_nil fits))).
        cbn [bind map insert_rows]. unfold insert_row. now rewrite Hc. }
      pose proof (run_mutation_single_counter (Insert [u]) now db r
                    (user_list db ++ [new_row now u]) Hs Hid Hr Hstmt) as Hout.
      cbn [run_mutation affected_rows delta List.length] in Hout.
      assert (Hb : in_int4b (total_users r + Z.of_nat 1 * 1) = true).
      { apply in_int4b_true. rewrite Ht.
        unfold in_int4, INT4_MIN, cardinality in *. cbn [List.length] in Hroom. lia. }
      rewrite Hb in Hout.
      set (db1 := mk_database (user_list db ++ [new_row now u])
                    [mk_user_stats_row 1 (total_users r + Z.of_nat 1 * 1) (Some now)])
        in *.
      assert (Hinv1 : counter_tracks_ledger db1).
      { eexists. split; [reflexivity|]. split; [reflexivity|].
        unfold db1, cardinality in *. cbn [user_list total_users].
        rewrite length_app, Ht. simpl. lia. }
      assert (Hroom1 : cardinality db1 + Z.of_nat (List.length users) <= INT4_MAX).
      { unfold db1, cardinality in *. cbn [user_list].
        rewrite length_app. cbn [List.length] in *. lia. }
      destruct (IH db1 Hfits' Hinv1 Hroom1 (fresh_ids_snoc _ _ _ now Hfresh))
        as (db' & Hrun & Hinv' & Hincl & Hall).
      exists db'. cbn [for_of_users]. rewrite query_INSERT_online, Hout.
      assert (Hincl0 : incl (user_list db) (user_list db')).
      { intros x Hx. apply Hincl. unfold db1. cbn [user_list].
        apply in_or_app. now left. }
      repeat split; auto. constructor; [|exact Hall].
      exists (new_row now u). split.
      * apply Hincl. unfold db1. cbn [user_list]. apply in_or_app. right. now left.
      * left. reflexivity.
Qed.

(** The five sample usernames and emails are short. *)
Lemma sampleUsers_fit nextval : Forall fits (sampleUsers nextval).
Proof. unfold sampleUsers, fits. repeat constructor; simpl; lia. Qed.

Lemma sampleUsers_keys nextval nextval' t :
  Forall (natural_key_stored t) (sampleUsers nextval) ->
  Forall (natural_key_stored t) (sampleUsers nextval').
Proof.
  unfold sampleUsers. intros H.
  repeat match goal with
         | H : Forall _ (_ :: _) |- _ => inversion H; clear H; subst
         end.
  repeat constructor; assumption.
Qed.

Lemma addSampleData_after_loop nextval c db db' now :
  for_of_users (sampleUsers nextval) (online db now) = (online db' now, Return tt) ->
  counter_tracks_ledger db' ->
  addSampleData nextval (mk_world c None db now) = (online db' now, Return (cardinality db')).
Proof.
  intros Hloop (r & Hs & Hid & Ht).
  unfold addSampleData, js_bind, connect, set_dbConnection.
  cbn [unreachable storage clock].
  change (mk_world (mk_DatabaseConnection true true) None db now) with (online db now).
  rewrite Hloop, getUserCount_result, (AggregateCounter_single db' r Hs Hid).
  unfold js_return, columns. simpl. now rewrite Ht.
Qed.

(** [addSampleData] with the server up, on a database whose counter tracks
    the ledger, with room for five more rows and fresh ids: it returns
    without an error whatever the connection state was, logs the number of
    ledger rows, keeps every row that was stored, and afterwards each of the
    five usernames or its email is in the ledger. *)
Theorem addSampleData_stores_users (nextval : nat -> Z) (c : DatabaseConnection)
  (db : database) (now : timestamp) :
  counter_tracks_ledger db ->
  cardinality db + 5 <= INT4_MAX ->
  fresh_ids (sampleUsers nextval) (user_list db) ->
  exists db',
    addSampleData nextval (mk_world c None db now)
      = (online db' now, Return (cardinality db')) /\
    counter_tracks_ledger db' /\
    incl (user_list db) (user_list db') /\
    Forall (natural_key_stored (user_list db')) (sampleUsers nextval).
Proof.
  intros Hinv Hroom Hfresh.
  destruct (for_of_users_run (sampleUsers nextval) now db
              (sampleUsers_fit nextval) Hinv Hroom Hfresh)
    as (db' & Hloop & Hinv' & Hincl & Hall).
  exists db'. split; [|auto]. now apply addSampleData_after_loop.
Qed.

Lemma fresh_sample_ids : fresh_ids (sampleUsers sample_ids) (user_list two_members).
Proof.
  split.
  - repeat constructor; simpl; intuition discriminate.
  - repeat constructor; simpl; intuition discriminate.
Qed.

Lemma addSampleData_stores_users_witness :
  (counter_tracks_ledger two_members /\
   cardinality two_members + 5 <= INT4_MAX /\
   fresh_ids (sampleUsers sample_ids) (user_list two_members)) /\
  exists db',
    addSampleData sample_ids (mk_world (mk_DatabaseConnection false false) None two_members 30)
      = (online db' 30, Return (cardinality db')) /\
    counter_tracks_ledger db' /\
    incl (user_list two_members) (user_list db') /\
    Forall (natural_key_stored (user_list db')) (sampleUsers sample_ids).
Proof.
  assert (H1 : counter_tracks_ledger two_members).
  { eexists. split; [reflexivity|]. split; reflexivity. }
  assert (H2 : cardinality two_members + 5 <= INT4_MAX).
  { vm_compute. discriminate. }
  split; [split; [exact H1 | split; [exact H2 | apply fresh_sample_ids]]|].
  apply (addSampleData_stores_users sample_ids (mk_DatabaseConnection false false)
           two_members 30 H1 H2 fresh_sample_ids).
Defined.

Example addSampleData_on_two_members :
  snd (addSampleData sample_ids (online two_members 30)) = Return 7.
Proof. reflexivity. Qed.

(** Run again, with whatever ids, on a database that already holds the five
    usernames or emails, [addSampleData] adds nothing: it returns without an
    error, logs the same count, and leaves the database as it was. *)
Theorem addSampleData_again (nextval nextval' : nat -> Z) (c : DatabaseConnection)
  (db : database) (now : timestamp) :
  counter_tracks_ledger db ->
  Forall (natural_key_stored (user_list db)) (sampleUsers nextval) ->
  addSampleData nextval' (mk_world c None db now)
    = (online db now, Return (cardinality db)).
Proof.
  intros Hinv Hall. apply addSampleData_after_loop; [|exact Hinv].
  apply for_of_users_skip_all; [apply sampleUsers_fit|].
  eapply sampleUsers_keys; eauto.
Qed.

Example addSampleData_on_two_members_storage :
  storage (fst (addSampleData sample_ids (online two_members 30))) = seven_members.
Proof. reflexivity. Qed.

Lemma sample_users_stored :
  Forall (natural_key_stored (user_list seven_members)) (sampleUsers sample_ids).
Proof.
  repeat constructor.
  - exists (new_row 30 (mk_VALUES 101 "john_d1oe" "john1@example.com")).
    split; [right; right; left; reflexivity | left; reflexivity].
  - exists (new_row 30 (mk_VALUES 102 "jane_sm1ith" "jane1@example.com")).
    split; [do 3 right; left; reflexivity | left; reflexivity].
  - exists (new_row 30 (mk_VALUES 103 "bob_wil1son" "b1ob@example.com")).
    split; [do 4 right; left; reflexivity | left; reflexivity].
  - exists (new_row 30 (mk_VALUES 104 "alice_br1own" "al1ice@example.com")).
    split; [do 5 right; left; reflexivity | left; reflexivity].
  - exists (new_row 30 (mk_VALUES 105 "charli1e_davis" "cha1rlie@example.com")).
    split; [do 6 right; left; reflexivity | left; reflexivity].
Qed.

Lemma addSampleData_again_witness :
  (counter_tracks_ledger seven_members /\
   Forall (natural_key_stored (user_list seven_members)) (sampleUsers sample_ids)) /\
  addSampleData (fun i => 200 + Z.of_nat i) (online seven_members 31)
    = (online seven_members 31, Return (cardinality seven_members)).
Proof.
  assert (H1 : counter_tracks_ledger seven_members).
  { exists (mk_user_stats_row 1 7 (Some 30)).
    split; [reflexivity|]. split; reflexivity. }
  split; [split; [exact H1 | apply sample_users_stored]|].
  apply (addSampleData_again sample_ids (fun i => 200 + Z.of_nat i) connected
           seven_members 31 H1 sample_users_stored).
Defined.

(** * The error handler *)

(** The handler answers 503 exactly for the codes [ECONNREFUSED] and
    [ENOTFOUND] and 500 for every other error, coded or not; what it sends
    does not depend on the message of the error. *)
Theorem errorHandler_status (error : Error) (now : timestamp) :
  (statusCode (errorHandler error now) = 503 <->
   code error = Some "ECONNREFUSED"%string \/ code error = Some "ENOTFOUND"%string) /\
  (statusCode (errorHandler error now) <> 503 ->
   statusCode (errorHandler error now) = 500) /\
  (forall text, errorHandler (mk_Error (code error) text) now = errorHandler error now).
Proof.
  unfold errorHandler, code_is. destruct error as [[c|] m]; simpl.
  - destruct (String.eqb_spec c "ECONNREFUSED") as [->|H1];
      [|destruct (String.eqb_spec c "ENOTFOUND") as [->|H2]]; simpl.
    + repeat split; auto. intros H; now contradiction H.
    + repeat split; auto. intros H; now contradiction H.
    + repeat split; try discriminate; auto.
      intros [H|H]; inversion H; contradiction.
  - repeat split; try discriminate; auto. intros [H|H]; discriminate.
Qed.
